(** * Verification of knative test-infra: the GKE request builder and the
      TestGrid configuration generator

    The development embeds two Go files:
    - [pkg/gke/request.go]: the [Request] record, [DeepCopy] and
      [NewCreateClusterRequest];
    - [tools/config-generator/testgrid_config.go]: the TestGrid metadata
      store and the generation passes that walk it.

    Go strings are byte strings ([string]); Go maps are [gmap]s; [int64]
    fields that are only compared are integers in [Z]; a pointer that may be
    nil is an [option]; a function returning [(value, error)] returns an
    [outcome]; a function that may panic returns an [option]. The output
    sink of the generator is threaded through the passes explicitly. *)

From Stdlib Require Import ZArith Ascii.
From Stdlib Require String.
From stdpp Require Import gmap strings list fin_maps.

Local Open Scope Z_scope.

(** ** Results of fallible Go functions *)

Inductive outcome (A : Type) : Type :=
| Ok (a : A)
| Err (msg : string).
Arguments Ok {A} a.
Arguments Err {A} msg.

(* ================================================================== *)
(** * pkg/gke/request.go *)
(* ================================================================== *)

Module Gke.

Definition defaultGKEVersion : string := "latest".

(** [container.CloudPlatformScope] of the Google API client. *)
Definition CloudPlatformScope : string :=
  "https://www.googleapis.com/auth/cloud-platform".

(** Request contains all settings collected for cluster creation. *)
Record Request := {
  GCPCredentialFile : string;
  Project : string;
  GKEVersion : string;
  ReleaseChannel : string;
  ClusterName : string;
  MinNodes : Z;
  MaxNodes : Z;
  NodeType : string;
  Region : string;
  Zone : string;
  Addons : list string;
  EnableWorkloadIdentity : bool;
  ServiceAccount : string
}.

(** DeepCopy builds a new struct literal; a field the literal leaves out
    takes Go's zero value. *)
Definition DeepCopy (r : Request) : Request :=
  {| GCPCredentialFile := "";
     Project := Project r;
     GKEVersion := GKEVersion r;
     ReleaseChannel := ReleaseChannel r;
     ClusterName := ClusterName r;
     MinNodes := MinNodes r;
     MaxNodes := MaxNodes r;
     NodeType := NodeType r;
     Region := Region r;
     Zone := Zone r;
     Addons := Addons r;
     EnableWorkloadIdentity := EnableWorkloadIdentity r;
     ServiceAccount := ServiceAccount r |}.

(** The structs of [google.golang.org/api/container/v1beta1] that the
    builder fills in. Fields the builder never sets are left out; their
    selectors carry the struct's initials because Rocq shares one name
    space between records. *)
Record NodePoolAutoscaling := {
  npa_Enabled : bool;
  npa_MinNodeCount : Z;
  npa_MaxNodeCount : Z
}.

Record NodeConfig := {
  nc_MachineType : string;
  nc_OauthScopes : list string;
  nc_ServiceAccount : string
}.

Record NodePool := {
  np_Name : string;
  np_InitialNodeCount : Z;
  np_Autoscaling : option NodePoolAutoscaling;
  np_Config : option NodeConfig
}.

Record MasterAuth := { ma_Username : string }.
Record WorkloadIdentityConfig := { wic_WorkloadPool : string }.
Record ReleaseChannelConfig := { rc_Channel : string }.

Section Builder.

(** [GetAddonsConfig] lives in another file of the package; the builder
    only stores what it returns. *)
Variable AddonsConfig : Type.
Variable GetAddonsConfig : list string → option AddonsConfig.

Record Cluster := {
  c_NodePools : list NodePool;
  c_Name : string;
  c_AddonsConfig : option AddonsConfig;
  c_MasterAuth : option MasterAuth;
  c_WorkloadIdentityConfig : option WorkloadIdentityConfig;
  c_ReleaseChannel : option ReleaseChannelConfig;
  c_InitialClusterVersion : string
}.

Record CreateClusterRequest := { ccr_Cluster : option Cluster }.

(** In-place updates of the request under construction. *)
Definition set_WorkloadIdentityConfig (w : WorkloadIdentityConfig) (c : Cluster) : Cluster :=
  {| c_NodePools := c_NodePools c; c_Name := c_Name c;
     c_AddonsConfig := c_AddonsConfig c; c_MasterAuth := c_MasterAuth c;
     c_WorkloadIdentityConfig := Some w;
     c_ReleaseChannel := c_ReleaseChannel c;
     c_InitialClusterVersion := c_InitialClusterVersion c |}.

Definition set_ReleaseChannel (ch : ReleaseChannelConfig) (c : Cluster) : Cluster :=
  {| c_NodePools := c_NodePools c; c_Name := c_Name c;
     c_AddonsConfig := c_AddonsConfig c; c_MasterAuth := c_MasterAuth c;
     c_WorkloadIdentityConfig := c_WorkloadIdentityConfig c;
     c_ReleaseChannel := Some ch;
     c_InitialClusterVersion := c_InitialClusterVersion c |}.

Definition set_InitialClusterVersion (v : string) (c : Cluster) : Cluster :=
  {| c_NodePools := c_NodePools c; c_Name := c_Name c;
     c_AddonsConfig := c_AddonsConfig c; c_MasterAuth := c_MasterAuth c;
     c_WorkloadIdentityConfig := c_WorkloadIdentityConfig c;
     c_ReleaseChannel := c_ReleaseChannel c;
     c_InitialClusterVersion := v |}.

Definition set_pool_ServiceAccount (sa : string) (np : NodePool) : NodePool :=
  {| np_Name := np_Name np;
     np_InitialNodeCount := np_InitialNodeCount np;
     np_Autoscaling := np_Autoscaling np;
     np_Config :=
       (λ cfg, {| nc_MachineType := nc_MachineType cfg;
                  nc_OauthScopes := nc_OauthScopes cfg;
                  nc_ServiceAccount := sa |}) <$> np_Config np |}.

(** [ccr.Cluster.NodePools[0].Config.ServiceAccount = sa] *)
Definition set_first_pool_ServiceAccount (sa : string) (c : Cluster) : Cluster :=
  {| c_NodePools :=
       match c_NodePools c with
       | np :: rest => set_pool_ServiceAccount sa np :: rest
       | [] => []
       end;
     c_Name := c_Name c;
     c_AddonsConfig := c_AddonsConfig c; c_MasterAuth := c_MasterAuth c;
     c_WorkloadIdentityConfig := c_WorkloadIdentityConfig c;
     c_ReleaseChannel := c_ReleaseChannel c;
     c_InitialClusterVersion := c_InitialClusterVersion c |}.

(** The cluster literal the builder starts from. *)
Definition initialCluster (request : Request) : Cluster :=
  {| c_NodePools :=
       [ {| np_Name := "default-pool";
            np_InitialNodeCount := MinNodes request;
            np_Autoscaling :=
              Some {| npa_Enabled := true;
                      npa_MinNodeCount := MinNodes request;
                      npa_MaxNodeCount := MaxNodes request |};
            np_Config :=
              Some {| nc_MachineType := NodeType request;
                      nc_OauthScopes := [CloudPlatformScope];
                      nc_ServiceAccount := "" |} |} ];
     c_Name := ClusterName request;
     c_AddonsConfig := GetAddonsConfig (Addons request);
     c_MasterAuth := Some {| ma_Username := "admin" |};
     c_WorkloadIdentityConfig := None;
     c_ReleaseChannel := None;
     c_InitialClusterVersion := "" |}.

Definition is_empty (s : string) : bool := bool_decide (s = "").

(** NewCreateClusterRequest returns a new CreateClusterRequest that can be
    used in the gcloud SDK. *)
Definition NewCreateClusterRequest (request : Request) : outcome CreateClusterRequest :=
  if is_empty (ClusterName request) then
    Err "cluster name cannot be empty"
  else if MinNodes request <=? 0 then
    Err "min nodes must be larger than 1"
  else if MinNodes request >? MaxNodes request then
    Err "min nodes cannot be larger than max nodes"
  else if is_empty (NodeType request) then
    Err "node type cannot be empty"
  else if EnableWorkloadIdentity request && is_empty (Project request) then
    Err "project cannot be empty if you want Workload Identity"
  else if negb (is_empty (GKEVersion request)) && negb (is_empty (ReleaseChannel request)) then
    Err "can only specify one of GKE version or release channel (not both)"
  else
    let c := initialCluster request in
    let c :=
      if EnableWorkloadIdentity request then
        set_WorkloadIdentityConfig
          {| wic_WorkloadPool := Project request +:+ ".svc.id.goog" |} c
      else c in
    let c :=
      if negb (is_empty (ServiceAccount request)) then
        set_first_pool_ServiceAccount (ServiceAccount request) c
      else c in
    let c :=
      if negb (is_empty (ReleaseChannel request)) then
        set_ReleaseChannel {| rc_Channel := ReleaseChannel request |} c
      else if negb (is_empty (GKEVersion request)) then
        set_InitialClusterVersion (GKEVersion request) c
      else
        set_InitialClusterVersion defaultGKEVersion c in
    Ok {| ccr_Cluster := Some c |}.

(** What the claim calls a rejected request. *)
Definition rejected (r : Request) : Prop :=
  ClusterName r = ""
  ∨ MinNodes r ≤ 0
  ∨ MinNodes r > MaxNodes r
  ∨ NodeType r = ""
  ∨ (EnableWorkloadIdentity r = true ∧ Project r = "")
  ∨ (GKEVersion r ≠ "" ∧ ReleaseChannel r ≠ "").

(** The single autoscaled default pool of a built request. *)
Definition has_single_default_pool (r : Request) (ccr : CreateClusterRequest) : Prop :=
  ∃ c np a,
    ccr_Cluster ccr = Some c
    ∧ c_NodePools c = [np]
    ∧ np_Name np = "default-pool"
    ∧ np_Autoscaling np = Some a
    ∧ npa_Enabled a = true
    ∧ npa_MinNodeCount a = MinNodes r
    ∧ npa_MaxNodeCount a = MaxNodes r.

Lemma is_empty_true s : is_empty s = true ↔ s = "".
Proof. unfold is_empty. by rewrite bool_decide_eq_true. Qed.

Lemma is_empty_false s : is_empty s = false ↔ s ≠ "".
Proof. unfold is_empty. by rewrite bool_decide_eq_false. Qed.

Lemma NewCreateClusterRequest_err_iff r :
  (∃ msg, NewCreateClusterRequest r = Err msg) ↔ rejected r.
Proof.
  unfold NewCreateClusterRequest, rejected.
  destruct (is_empty (ClusterName r)) eqn:Hname.
  { apply is_empty_true in Hname. split; [auto | eauto]. }
  apply is_empty_false in Hname.
  destruct (MinNodes r <=? 0) eqn:Hmin.
  { apply Z.leb_le in Hmin. split; [auto | eauto]. }
  apply Z.leb_gt in Hmin.
  destruct (MinNodes r >? MaxNodes r) eqn:Hmax.
  { apply Z.gtb_gt in Hmax. split; [auto | eauto]. }
  assert (¬ MinNodes r > MaxNodes r) as Hmax'.
  { rewrite Z.gtb_ltb in Hmax. apply Z.ltb_ge in Hmax. lia. }
  destruct (is_empty (NodeType r)) eqn:Htype.
  { apply is_empty_true in Htype. split; [auto 6 | eauto]. }
  apply is_empty_false in Htype.
  destruct (EnableWorkloadIdentity r) eqn:Hwi; simpl.
  - destruct (is_empty (Project r)) eqn:Hproj.
    { apply is_empty_true in Hproj. split; [auto 8 | eauto]. }
    apply is_empty_false in Hproj.
    destruct (is_empty (GKEVersion r)) eqn:Hv; simpl.
    { apply is_empty_true in Hv. split; [intros [? ?]; discriminate |].
      intros [?|[?|[?|[?|[[_ ?]|[? _]]]]]]; try done; lia. }
    apply is_empty_false in Hv.
    destruct (is_empty (ReleaseChannel r)) eqn:Hc; simpl.
    { apply is_empty_true in Hc. split; [intros [? ?]; discriminate |].
      intros [?|[?|[?|[?|[[_ ?]|[_ ?]]]]]]; try done; lia. }
    apply is_empty_false in Hc. split; [auto 10 | eauto].
  - destruct (is_empty (GKEVersion r)) eqn:Hv; simpl.
    { apply is_empty_true in Hv. split; [intros [? ?]; discriminate |].
      intros [?|[?|[?|[?|[[? _]|[? _]]]]]]; try done; lia. }
    apply is_empty_false in Hv.
    destruct (is_empty (ReleaseChannel r)) eqn:Hc; simpl.
    { apply is_empty_true in Hc. split; [intros [? ?]; discriminate |].
      intros [?|[?|[?|[?|[[? _]|[_ ?]]]]]]; try done; lia. }
    apply is_empty_false in Hc. split; [auto 10 | eauto].
Qed.

Lemma NewCreateClusterRequest_ok_pool r ccr :
  NewCreateClusterRequest r = Ok ccr → has_single_default_pool r ccr.
Proof.
  unfold NewCreateClusterRequest, has_single_default_pool.
  repeat (case_match; try discriminate); intros [= <-]; simpl;
    eexists _, _, _; repeat split; reflexivity.
Qed.

(** ** Properties of the request builder *)

Lemma NewCreateClusterRequest_total r :
  (∃ ccr, NewCreateClusterRequest r = Ok ccr) ∨ (∃ msg, NewCreateClusterRequest r = Err msg).
Proof. destruct (NewCreateClusterRequest r); eauto. Qed.

(** C4. NewCreateClusterRequest returns an error exactly when the cluster
    name is empty, the minimum node count is not positive, the minimum
    exceeds the maximum, the node type is empty, Workload Identity is asked
    for with an empty project, or both a GKE version and a release channel
    are given. A request it returns has exactly one node pool, named
    default-pool, with autoscaling enabled between the given bounds; and
    every request that is not rejected is built. *)
Theorem NewCreateClusterRequest_spec (r : Request) :
  ((∃ msg, NewCreateClusterRequest r = Err msg) ↔ rejected r)
  ∧ (∀ ccr, NewCreateClusterRequest r = Ok ccr → has_single_default_pool r ccr)
  ∧ (¬ rejected r →
     ∃ ccr, NewCreateClusterRequest r = Ok ccr ∧ has_single_default_pool r ccr).
Proof.
  split; [apply NewCreateClusterRequest_err_iff |].
  split; [apply NewCreateClusterRequest_ok_pool |].
  intros Hacc.
  destruct (NewCreateClusterRequest_total r) as [[ccr Hok] | Herr].
  - exists ccr. split; [done |]. by apply NewCreateClusterRequest_ok_pool.
  - by apply NewCreateClusterRequest_err_iff in Herr.
Qed.

(** The requests of the builder's acceptance checks. *)
Definition minimalRequest (minNodes maxNodes : Z) (version channel : string) : Request :=
  {| GCPCredentialFile := ""; Project := ""; GKEVersion := version;
     ReleaseChannel := channel; ClusterName := "c"; MinNodes := minNodes;
     MaxNodes := maxNodes; NodeType := "e2-standard-4"; Region := "";
     Zone := ""; Addons := []; EnableWorkloadIdentity := false;
     ServiceAccount := "" |}.

Example rejects_zero_min_nodes :
  NewCreateClusterRequest (minimalRequest 0 3 "" "")
  = Err "min nodes must be larger than 1".
Proof. reflexivity. Qed.

Example rejects_min_above_max :
  NewCreateClusterRequest (minimalRequest 5 3 "" "")
  = Err "min nodes cannot be larger than max nodes".
Proof. reflexivity. Qed.

Example rejects_version_and_channel :
  NewCreateClusterRequest (minimalRequest 1 3 "1.16" "rapid")
  = Err "can only specify one of GKE version or release channel (not both)".
Proof. reflexivity. Qed.

Example accepts_minimal_request :
  ∃ c, NewCreateClusterRequest (minimalRequest 1 3 "" "") = Ok {| ccr_Cluster := Some c |}
       ∧ c_InitialClusterVersion c = "latest"
       ∧ (np_Name <$> c_NodePools c) = ["default-pool"].
Proof. eexists. repeat split. Qed.

(** ** Further properties of the request builder *)

(** X1. The guards of NewCreateClusterRequest are tried in a fixed order
    and the first one that fails decides the error message: an empty
    cluster name wins over everything, then a non-positive minimum, then a
    minimum above the maximum, then an empty node type, then Workload
    Identity without a project, then a version given together with a
    release channel. *)
Theorem NewCreateClusterRequest_first_error (r : Request) :
  (ClusterName r = "" →
   NewCreateClusterRequest r = Err "cluster name cannot be empty")
  ∧ (ClusterName r ≠ "" → MinNodes r ≤ 0 →
     NewCreateClusterRequest r = Err "min nodes must be larger than 1")
  ∧ (ClusterName r ≠ "" → 0 < MinNodes r → MinNodes r > MaxNodes r →
     NewCreateClusterRequest r = Err "min nodes cannot be larger than max nodes")
  ∧ (ClusterName r ≠ "" → 0 < MinNodes r ≤ MaxNodes r → NodeType r = "" →
     NewCreateClusterRequest r = Err "node type cannot be empty")
  ∧ (ClusterName r ≠ "" → 0 < MinNodes r ≤ MaxNodes r → NodeType r ≠ "" →
     EnableWorkloadIdentity r = true → Project r = "" →
     NewCreateClusterRequest r
     = Err "project cannot be empty if you want Workload Identity")
  ∧ (ClusterName r ≠ "" → 0 < MinNodes r ≤ MaxNodes r → NodeType r ≠ "" →
     (EnableWorkloadIdentity r = true → Project r ≠ "") →
     GKEVersion r ≠ "" → ReleaseChannel r ≠ "" →
     NewCreateClusterRequest r
     = Err "can only specify one of GKE version or release channel (not both)").
Proof.
  assert (∀ a b : Z, 0 < a ≤ b → (a <=? 0) = false ∧ (a >? b) = false) as Hbounds.
  { intros a b [? ?]. split; [by apply Z.leb_gt |].
    rewrite Z.gtb_ltb. apply Z.ltb_ge. lia. }
  unfold NewCreateClusterRequest. repeat split.
  - intros ->%is_empty_true. done.
  - intros ->%is_empty_false ?%Z.leb_le. by rewrite H.
  - intros ->%is_empty_false ?%Z.leb_gt ?%Z.gtb_gt. by rewrite H, H0.
  - intros ->%is_empty_false [-> ->]%Hbounds ->%is_empty_true. done.
  - intros ->%is_empty_false [-> ->]%Hbounds ->%is_empty_false -> ->%is_empty_true.
    done.
  - intros ->%is_empty_false [-> ->]%Hbounds ->%is_empty_false Hwi
      ->%is_empty_false ->%is_empty_false.
    destruct (EnableWorkloadIdentity r); [| done].
    specialize (Hwi eq_refl). apply is_empty_false in Hwi. by rewrite Hwi.
Qed.

(** X2. A request that is built carries either a release channel or an
    initial cluster version, never both and never neither: the channel of
    the request when one is given (the version is then left empty),
    otherwise the given version, otherwise the default latest. *)
Theorem NewCreateClusterRequest_version_or_channel (r : Request)
    (ccr : CreateClusterRequest) :
  NewCreateClusterRequest r = Ok ccr →
  ∃ c,
    ccr_Cluster ccr = Some c
    ∧ ((ReleaseChannel r ≠ ""
        ∧ c_ReleaseChannel c = Some {| rc_Channel := ReleaseChannel r |}
        ∧ c_InitialClusterVersion c = "")
       ∨ (ReleaseChannel r = "" ∧ GKEVersion r ≠ ""
          ∧ c_ReleaseChannel c = None
          ∧ c_InitialClusterVersion c = GKEVersion r)
       ∨ (ReleaseChannel r = "" ∧ GKEVersion r = ""
          ∧ c_ReleaseChannel c = None
          ∧ c_InitialClusterVersion c = defaultGKEVersion)).
Proof.
  unfold NewCreateClusterRequest.
  destruct (is_empty (ClusterName r)); [done |].
  destruct (MinNodes r <=? 0); [done |].
  destruct (MinNodes r >? MaxNodes r); [done |].
  destruct (is_empty (NodeType r)); [done |].
  destruct (EnableWorkloadIdentity r && is_empty (Project r)); [done |].
  destruct (is_empty (GKEVersion r)) eqn:Hv;
    destruct (is_empty (ReleaseChannel r)) eqn:Hc; cbn [negb andb]; [..| done];
    intros [= <-]; eexists; (split; [reflexivity |]).
  - apply is_empty_true in Hv, Hc. right. right.
    by destruct (EnableWorkloadIdentity r), (is_empty (ServiceAccount r)).
  - apply is_empty_true in Hv. apply is_empty_false in Hc. left.
    by destruct (EnableWorkloadIdentity r), (is_empty (ServiceAccount r)).
  - apply is_empty_false in Hv. apply is_empty_true in Hc. right. left.
    by destruct (EnableWorkloadIdentity r), (is_empty (ServiceAccount r)).
Qed.

(** X3. In a request that is built, the default pool starts at the
    minimum node count on the requested machine type with the cloud
    platform scope and the service account of the request (none when none
    is given); the cluster has the requested name and addons and the
    admin master user; and a workload pool, the project followed by
    .svc.id.goog, is set exactly when Workload Identity is enabled. *)
Theorem NewCreateClusterRequest_pool_and_identity (r : Request)
    (ccr : CreateClusterRequest) :
  NewCreateClusterRequest r = Ok ccr →
  ∃ c np,
    ccr_Cluster ccr = Some c
    ∧ c_NodePools c = [np]
    ∧ np_InitialNodeCount np = MinNodes r
    ∧ np_Config np
      = Some {| nc_MachineType := NodeType r;
                nc_OauthScopes := [CloudPlatformScope];
                nc_ServiceAccount := ServiceAccount r |}
    ∧ c_Name c = ClusterName r
    ∧ c_AddonsConfig c = GetAddonsConfig (Addons r)
    ∧ c_MasterAuth c = Some {| ma_Username := "admin" |}
    ∧ c_WorkloadIdentityConfig c
      = (if EnableWorkloadIdentity r then
           Some {| wic_WorkloadPool := Project r +:+ ".svc.id.goog" |}
         else None).
Proof.
  unfold NewCreateClusterRequest.
  destruct (is_empty (ClusterName r)); [done |].
  destruct (MinNodes r <=? 0); [done |].
  destruct (MinNodes r >? MaxNodes r); [done |].
  destruct (is_empty (NodeType r)); [done |].
  destruct (EnableWorkloadIdentity r && is_empty (Project r)); [done |].
  destruct (negb (is_empty (GKEVersion r)) && negb (is_empty (ReleaseChannel r)));
    [done |].
  intros [= <-].
  destruct (is_empty (ServiceAccount r)) eqn:Hsa.
  - apply is_empty_true in Hsa.
    destruct (EnableWorkloadIdentity r), (is_empty (ReleaseChannel r)),
      (is_empty (GKEVersion r)); cbn; eexists _, _;
      (repeat split; try reflexivity); cbn; by rewrite Hsa.
  - destruct (EnableWorkloadIdentity r), (is_empty (ReleaseChannel r)),
      (is_empty (GKEVersion r)); cbn; eexists _, _; repeat split; reflexivity.
Qed.

(** X4. The builder never reads the credential file: it gives the same
    result on a request and on its DeepCopy. Copying twice is copying once,
    and a copy equals its original exactly when the original has no
    credential file. *)
Theorem NewCreateClusterRequest_DeepCopy (r : Request) :
  NewCreateClusterRequest (DeepCopy r) = NewCreateClusterRequest r
  ∧ DeepCopy (DeepCopy r) = DeepCopy r
  ∧ (DeepCopy r = r ↔ GCPCredentialFile r = "").
Proof.
  split; [by destruct r |]. split; [by destruct r |].
  destruct r as [cred ? ? ? ? ? ? ? ? ? ? ? ?]. unfold DeepCopy. cbn. split.
  - by intros [= <-].
  - by intros ->.
Qed.

End Builder.

(** C9. DeepCopy returns a request whose every field equals the
    receiver's, except the credential file, which is the empty string
    whatever the receiver holds. *)
Theorem DeepCopy_fields (r : Request) :
  Project (DeepCopy r) = Project r
  ∧ GKEVersion (DeepCopy r) = GKEVersion r
  ∧ ReleaseChannel (DeepCopy r) = ReleaseChannel r
  ∧ ClusterName (DeepCopy r) = ClusterName r
  ∧ MinNodes (DeepCopy r) = MinNodes r
  ∧ MaxNodes (DeepCopy r) = MaxNodes r
  ∧ NodeType (DeepCopy r) = NodeType r
  ∧ Region (DeepCopy r) = Region r
  ∧ Zone (DeepCopy r) = Zone r
  ∧ Addons (DeepCopy r) = Addons r
  ∧ EnableWorkloadIdentity (DeepCopy r) = EnableWorkloadIdentity r
  ∧ ServiceAccount (DeepCopy r) = ServiceAccount r
  ∧ GCPCredentialFile (DeepCopy r) = "".
Proof. repeat split. Qed.

Example DeepCopy_drops_credentials :
  GCPCredentialFile
    (DeepCopy {| GCPCredentialFile := "/secrets/key.json"; Project := "p";
                 GKEVersion := ""; ReleaseChannel := ""; ClusterName := "c";
                 MinNodes := 1; MaxNodes := 3; NodeType := "n"; Region := "";
                 Zone := ""; Addons := []; EnableWorkloadIdentity := false;
                 ServiceAccount := "" |}) = "".
Proof. reflexivity. Qed.

(** A builder instance with no addons, for the applications below. *)
Definition noAddons : list string → option unit := λ _, None.

Lemma NewCreateClusterRequest_version_or_channel_witness :
  ∃ ccr,
    NewCreateClusterRequest unit noAddons (minimalRequest 1 3 "" "rapid") = Ok ccr
    ∧ ∃ c,
        ccr_Cluster unit ccr = Some c
        ∧ ((ReleaseChannel (minimalRequest 1 3 "" "rapid") ≠ ""
            ∧ c_ReleaseChannel unit c
              = Some {| rc_Channel := ReleaseChannel (minimalRequest 1 3 "" "rapid") |}
            ∧ c_InitialClusterVersion unit c = "")
           ∨ (ReleaseChannel (minimalRequest 1 3 "" "rapid") = ""
              ∧ GKEVersion (minimalRequest 1 3 "" "rapid") ≠ ""
              ∧ c_ReleaseChannel unit c = None
              ∧ c_InitialClusterVersion unit c
                = GKEVersion (minimalRequest 1 3 "" "rapid"))
           ∨ (ReleaseChannel (minimalRequest 1 3 "" "rapid") = ""
              ∧ GKEVersion (minimalRequest 1 3 "" "rapid") = ""
              ∧ c_ReleaseChannel unit c = None
              ∧ c_InitialClusterVersion unit c = defaultGKEVersion)).
Proof.
  eexists. split; [reflexivity |].
  apply (NewCreateClusterRequest_version_or_channel unit noAddons
           (minimalRequest 1 3 "" "rapid")).
  reflexivity.
Defined.

Lemma NewCreateClusterRequest_pool_and_identity_witness :
  ∃ ccr,
    NewCreateClusterRequest unit noAddons (minimalRequest 1 3 "1.16" "") = Ok ccr
    ∧ ∃ c np,
        ccr_Cluster unit ccr = Some c
        ∧ c_NodePools unit c = [np]
        ∧ np_InitialNodeCount np = 1
        ∧ np_Config np
          = Some {| nc_MachineType := "e2-standard-4";
                    nc_OauthScopes := [CloudPlatformScope];
                    nc_ServiceAccount := "" |}
        ∧ c_Name unit c = "c"
        ∧ c_AddonsConfig unit c = None
        ∧ c_MasterAuth unit c = Some {| ma_Username := "admin" |}
        ∧ c_WorkloadIdentityConfig unit c = None.
Proof.
  eexists. split; [reflexivity |].
  apply (NewCreateClusterRequest_pool_and_identity unit noAddons
           (minimalRequest 1 3 "1.16" "")).
  reflexivity.
Defined.

End Gke.

(* ================================================================== *)
(** * Go's string and regexp primitives used by the generator *)
(* ================================================================== *)

Module GoStrings.

Definition nl : string := String "010"%char "".
Definition quote_char : ascii := "034"%char.
Definition quote : string := String quote_char "".

(** ** strings.ToLower

    Go lowers an all-ASCII string byte by byte and hands any other string
    to [Map(unicode.ToLower, s)], which needs the Unicode case tables: that
    second path is the parameter [unicodeLower]. *)

Definition isASCII (c : ascii) : bool := (N_of_ascii c <? 128)%N.

Definition isUpper (c : ascii) : bool :=
  (65 <=? N_of_ascii c)%N && (N_of_ascii c <=? 90)%N.

Definition lowerByte (c : ascii) : ascii :=
  if isUpper c then ascii_of_N (N_of_ascii c + 32) else c.

Fixpoint string_forall (p : ascii → bool) (s : string) : bool :=
  match s with
  | "" => true
  | String c s' => p c && string_forall p s'
  end.

Fixpoint string_exists (p : ascii → bool) (s : string) : bool :=
  match s with
  | "" => false
  | String c s' => p c || string_exists p s'
  end.

Fixpoint string_map (f : ascii → ascii) (s : string) : string :=
  match s with
  | "" => ""
  | String c s' => String (f c) (string_map f s')
  end.

Definition ToLower (unicodeLower : string → string) (s : string) : string :=
  if string_forall isASCII s then
    if string_exists isUpper s then string_map lowerByte s else s
  else unicodeLower s.

(** ** The pattern quotedEmailPattern

    [regexp.Compile] of a quote, one or more characters, an at sign, one or
    more characters, a dot, one or more characters, a quote; the text
    between the two quotes is capture group 1. The matcher below is the
    backtracking reading of that pattern, whose first success is the
    leftmost-first match Go's regexp package returns: each [.+] is greedy
    (longer runs are tried first) and [.] is any byte but a line feed. *)

Definition dot (c : ascii) : bool := negb (Ascii.eqb c "010"%char).

Fixpoint dot_plus {R : Type} (k : list ascii → option R) (s : list ascii) : option R :=
  match s with
  | [] => None
  | c :: s' =>
      if dot c then
        match dot_plus k s' with
        | Some r => Some r
        | None => k s'
        end
      else None
  end.

Definition lit {R : Type} (c : ascii) (k : list ascii → option R) (s : list ascii) : option R :=
  match s with
  | c' :: s' => if Ascii.eqb c c' then k s' else None
  | [] => None
  end.

(** A match anchored at the head of [s]: the text after the opening quote
    and the text from the closing quote on. *)
Definition match_here (s : list ascii) : option (list ascii * list ascii) :=
  lit quote_char
    (λ opened,
       dot_plus
         (lit "@"%char
            (dot_plus
               (lit "."%char
                  (dot_plus
                     (λ closing,
                        lit quote_char (λ _, Some (opened, closing)) closing)))))
         opened)
    s.

Fixpoint search (s : list ascii) : option (list ascii * list ascii) :=
  match match_here s with
  | Some r => Some r
  | None =>
      match s with
      | [] => None
      | _ :: s' => search s'
      end
  end.

(** [FindStringSubmatch]: the whole match and group 1, or nil. *)
Definition FindStringSubmatch (v : string) : list string :=
  match search (String.list_ascii_of_string v) with
  | Some (opened, closing) =>
      let group := take (length opened - length closing)%nat opened in
      [ String.string_of_list_ascii (quote_char :: group ++ [quote_char]);
        String.string_of_list_ascii group ]
  | None => []
  end.

(** ** Facts about ToLower *)

Lemma app_cons c (s t : string) : String c s +:+ t = String c (s +:+ t).
Proof. reflexivity. Qed.

Lemma app_empty_r (s : string) : s +:+ "" = s.
Proof. induction s as [|c s IH]; [done |]. by rewrite app_cons, IH. Qed.

Lemma app_assoc_str (s1 s2 s3 : string) : (s1 +:+ s2) +:+ s3 = s1 +:+ s2 +:+ s3.
Proof. induction s1 as [|c s1 IH]; [done |]. by rewrite !app_cons, IH. Qed.

Lemma string_forall_app p (s1 s2 : string) :
  string_forall p (s1 +:+ s2) = string_forall p s1 && string_forall p s2.
Proof.
  induction s1 as [|c s1 IH]; [done |]. rewrite app_cons. cbn.
  rewrite IH. by destruct (p c).
Qed.

Lemma string_map_app f (s1 s2 : string) :
  string_map f (s1 +:+ s2) = string_map f s1 +:+ string_map f s2.
Proof. induction s1 as [|c s1 IH]; [done |]. rewrite app_cons. cbn. by rewrite IH. Qed.

Lemma lowerByte_not_upper c : isUpper (lowerByte c) = false.
Proof. by destruct c as [[] [] [] [] [] [] [] []]. Qed.

Lemma lowerByte_fixes_lower c : isUpper c = false → lowerByte c = c.
Proof. unfold lowerByte. by intros ->. Qed.

Lemma string_map_lowerByte_id (s : string) :
  string_exists isUpper s = false → string_map lowerByte s = s.
Proof.
  induction s as [|c s IH]; [done |]. cbn.
  intros [Hc Hs]%orb_false_elim. by rewrite lowerByte_fixes_lower, IH.
Qed.

Lemma string_map_lowerByte_no_upper (s : string) :
  string_exists isUpper (string_map lowerByte s) = false.
Proof.
  induction s as [|c s IH]; [done |]. cbn. by rewrite lowerByte_not_upper, IH.
Qed.

(** On an all-ASCII string ToLower is the bytewise lowering, whatever the
    Unicode path does. *)
Lemma ToLower_ascii u (s : string) :
  string_forall isASCII s = true → ToLower u s = string_map lowerByte s.
Proof.
  unfold ToLower. intros ->.
  destruct (string_exists isUpper s) eqn:Hup; [done |].
  by rewrite string_map_lowerByte_id.
Qed.

(** ** Facts about the pattern matcher *)

Lemma lit_sound {R} c (k : list ascii → option R) s r :
  lit c k s = Some r → ∃ rest, s = c :: rest ∧ k rest = Some r.
Proof.
  destruct s as [|c' s]; [done |]. cbn.
  destruct (Ascii.eqb c c') eqn:Hc; [| done].
  apply Ascii.eqb_eq in Hc as <-. eauto.
Qed.

Lemma lit_complete {R} c (k : list ascii → option R) rest :
  lit c k (c :: rest) = k rest.
Proof. cbn. by rewrite Ascii.eqb_refl. Qed.

Lemma dot_plus_sound {R} (k : list ascii → option R) s r :
  dot_plus k s = Some r →
  ∃ a rest, s = a ++ rest ∧ a ≠ [] ∧ forallb dot a = true ∧ k rest = Some r.
Proof.
  induction s as [|c s IH]; [done |]. cbn.
  destruct (dot c) eqn:Hc; [| done].
  destruct (dot_plus k s) as [r' |] eqn:Hrec.
  - intros [= ->]. destruct (IH eq_refl) as (a & rest & -> & _ & Ha & Hk).
    exists (c :: a), rest. cbn. by rewrite Hc, Ha.
  - intros Hk. exists [c], s. cbn. by rewrite Hc.
Qed.

Lemma dot_plus_complete {R} (k : list ascii → option R) a rest :
  a ≠ [] → forallb dot a = true → is_Some (k rest) →
  is_Some (dot_plus k (a ++ rest)).
Proof.
  induction a as [|c a IH]; [done |]. intros _ Ha Hk. cbn in *.
  apply andb_true_iff in Ha as [-> Ha].
  destruct a as [|c' a].
  - cbn. destruct (dot_plus k rest); [eauto | done].
  - destruct (IH ltac:(done) Ha Hk) as [r ->]. eauto.
Qed.

(** The shape of a string the anchored pattern matches. *)
Definition email_shape (a b c : list ascii) : Prop :=
  a ≠ [] ∧ b ≠ [] ∧ c ≠ []
  ∧ forallb dot a = true ∧ forallb dot b = true ∧ forallb dot c = true.

Lemma match_here_sound s opened closing :
  match_here s = Some (opened, closing) →
  ∃ a b c post,
    s = quote_char :: opened
    ∧ opened = a ++ "@"%char :: b ++ "."%char :: c ++ closing
    ∧ closing = quote_char :: post
    ∧ email_shape a b c.
Proof.
  unfold match_here. intros H.
  apply lit_sound in H as (s1 & -> & H).
  apply dot_plus_sound in H as (a & r1 & -> & Ha & Hda & H).
  apply lit_sound in H as (r2 & -> & H).
  apply dot_plus_sound in H as (b & r3 & -> & Hb & Hdb & H).
  apply lit_sound in H as (r4 & -> & H).
  apply dot_plus_sound in H as (c & r5 & -> & Hc & Hdc & H).
  apply lit_sound in H as (post & -> & [= <- <-]).
  exists a, b, c, post. by repeat split.
Qed.

Lemma match_here_complete a b c post :
  email_shape a b c →
  is_Some (match_here
             (quote_char :: a ++ "@"%char :: b ++ "."%char :: c ++ quote_char :: post)).
Proof.
  intros (Ha & Hb & Hc & Hda & Hdb & Hdc). unfold match_here.
  rewrite lit_complete.
  apply dot_plus_complete; [done.. |]. rewrite lit_complete.
  apply dot_plus_complete; [done.. |]. rewrite lit_complete.
  apply dot_plus_complete; [done.. |]. rewrite lit_complete. eauto.
Qed.

Lemma search_sound s opened closing :
  search s = Some (opened, closing) →
  ∃ pre a b c post,
    s = pre ++ quote_char :: opened
    ∧ opened = a ++ "@"%char :: b ++ "."%char :: c ++ closing
    ∧ closing = quote_char :: post
    ∧ email_shape a b c.
Proof.
  induction s as [|x s IH]; cbn [search].
  - destruct (match_here []) as [[o c] |] eqn:Hm; [| done].
    intros [= -> ->]. by apply match_here_sound in Hm as (? & ? & ? & ? & ? & _).
  - destruct (match_here (x :: s)) as [[o c] |] eqn:Hm.
    + intros [= -> ->].
      apply match_here_sound in Hm as (a & b & c & post & Hs & Ho & Hc & Hsh).
      exists [], a, b, c, post. repeat (split; [done |]). done.
    + intros H. destruct (IH H) as (pre & a & b & c & post & -> & Ho & Hc & Hsh).
      exists (x :: pre), a, b, c, post. repeat (split; [done |]). done.
Qed.

Lemma search_complete pre a b c post :
  email_shape a b c →
  is_Some (search
             (pre ++ quote_char :: a ++ "@"%char :: b ++ "."%char :: c ++ quote_char :: post)).
Proof.
  intros Hsh. induction pre as [|x pre IH].
  - cbn [app]. pose proof (match_here_complete a b c post Hsh) as [r Hr].
    destruct a; cbn [search app] in *; rewrite Hr; eauto.
  - cbn [app search]. destruct (match_here _); [eauto | done].
Qed.

Lemma shape_app_assoc (a b c rest : list ascii) :
  (a ++ "@"%char :: b ++ "."%char :: c) ++ rest
  = a ++ "@"%char :: b ++ "."%char :: c ++ rest.
Proof. by repeat (rewrite <- app_assoc; cbn [app]). Qed.

(** A value holds a quoted string with an at sign and a dot. *)
Definition has_quoted_email (v : string) : Prop :=
  ∃ pre mid post,
    String.list_ascii_of_string v = pre ++ quote_char :: mid ++ quote_char :: post
    ∧ "@"%char ∈ mid ∧ "."%char ∈ mid.

(** The stricter shape the pattern asks for: text on both sides of the at
    sign and of the dot, and no line feed between the quotes. *)
Definition matches_quotedEmailPattern (v : string) : Prop :=
  ∃ pre a b c post,
    String.list_ascii_of_string v
    = pre ++ quote_char :: a ++ "@"%char :: b ++ "."%char :: c ++ quote_char :: post
    ∧ email_shape a b c.

Lemma FindStringSubmatch_group_iff (v : string) :
  is_Some (FindStringSubmatch v !! 1%nat) ↔ matches_quotedEmailPattern v.
Proof.
  unfold FindStringSubmatch, matches_quotedEmailPattern. split.
  - destruct (search _) as [[o c] |] eqn:Hs; [| by intros [? ?]].
    intros _. apply search_sound in Hs as (pre & a & b & c' & post & Hv & -> & -> & Hsh).
    exists pre, a, b, c', post. by rewrite Hv.
  - intros (pre & a & b & c & post & -> & Hsh).
    destruct (search_complete pre a b c post Hsh) as [[o c'] ->]. eauto.
Qed.

Lemma FindStringSubmatch_group_quoted (v : string) :
  is_Some (FindStringSubmatch v !! 1%nat) → has_quoted_email v.
Proof.
  intros (pre & a & b & c & post & Hv & Hsh)%FindStringSubmatch_group_iff.
  exists pre, (a ++ "@"%char :: b ++ "."%char :: c), post. split.
  - by rewrite Hv, shape_app_assoc.
  - set_solver.
Qed.

Lemma take_group (group closing : list ascii) :
  take (length (group ++ closing) - length closing) (group ++ closing) = group.
Proof.
  rewrite length_app.
  replace (length group + length closing - length closing)%nat
    with (length group) by lia.
  by rewrite take_app_length.
Qed.

(** The group is the text between the quotes of the match. *)
Lemma FindStringSubmatch_group (v e : string) :
  FindStringSubmatch v !! 1%nat = Some e →
  ∃ pre a b c post,
    String.list_ascii_of_string v
    = pre ++ quote_char :: String.list_ascii_of_string e ++ quote_char :: post
    ∧ String.list_ascii_of_string e = a ++ "@"%char :: b ++ "."%char :: c
    ∧ email_shape a b c.
Proof.
  unfold FindStringSubmatch.
  destruct (search _) as [[o c] |] eqn:Hs; [| done].
  apply search_sound in Hs as (pre & a & b & c' & post & Hv & -> & -> & Hsh).
  rewrite <- shape_app_assoc, take_group.
  intros [= <-]. exists pre, a, b, c', post.
  rewrite String.list_ascii_of_string_of_list_ascii.
  split; [| done]. by rewrite Hv, shape_app_assoc.
Qed.

(** ** Further facts about ToLower and the pattern *)

Lemma lowerByte_ascii c : isASCII c = true → isASCII (lowerByte c) = true.
Proof. by destruct c as [[] [] [] [] [] [] [] []]. Qed.

Lemma string_map_lowerByte_ascii (s : string) :
  string_forall isASCII s = true →
  string_forall isASCII (string_map lowerByte s) = true.
Proof.
  induction s as [|c s IH]; [done |]. cbn.
  intros [Hc Hs]%andb_true_iff. by rewrite lowerByte_ascii, IH.
Qed.

Lemma string_map_lowerByte_idemp (s : string) :
  string_map lowerByte (string_map lowerByte s) = string_map lowerByte s.
Proof.
  apply string_map_lowerByte_id, string_map_lowerByte_no_upper.
Qed.

Lemma string_map_length f (s : string) :
  String.length (string_map f s) = String.length s.
Proof. induction s as [|c s IH]; [done |]. cbn. by rewrite IH. Qed.

(** On an all-ASCII string ToLower leaves no upper-case letter,
    keeps the string all-ASCII and of the same length, and lowering twice
    is lowering once, whatever the Unicode path does. *)
Theorem ToLower_ascii_normal (u : string → string) (s : string) :
  string_forall isASCII s = true →
  string_exists isUpper (ToLower u s) = false
  ∧ string_forall isASCII (ToLower u s) = true
  ∧ String.length (ToLower u s) = String.length s
  ∧ ToLower u (ToLower u s) = ToLower u s.
Proof.
  intros Hs. rewrite (ToLower_ascii u s Hs).
  split; [apply string_map_lowerByte_no_upper |].
  split; [by apply string_map_lowerByte_ascii |].
  split; [apply string_map_length |].
  rewrite ToLower_ascii by (by apply string_map_lowerByte_ascii).
  apply string_map_lowerByte_idemp.
Qed.

Lemma match_here_needs_quote (x : ascii) (s : list ascii) :
  x ≠ quote_char → match_here (x :: s) = None.
Proof.
  intros Hx. unfold match_here, lit.
  destruct (Ascii.eqb quote_char x) eqn:Heq; [| done].
  apply Ascii.eqb_eq in Heq. congruence.
Qed.

Lemma search_skip (pre s : list ascii) :
  quote_char ∉ pre → search (pre ++ s) = search s.
Proof.
  induction pre as [|x pre IH]; [done |].
  rewrite not_elem_of_cons. intros [Hx Hpre].
  cbn [app search]. rewrite match_here_needs_quote by done. by apply IH.
Qed.

Lemma search_at_match (s : list ascii) r :
  match_here s = Some r → search s = Some r.
Proof. intros H. destruct s; cbn [search]; by rewrite H. Qed.

(** A list with a single separator splits around it in one way only. *)
Lemma split_at_unique_sep (q : ascii) (l1 r1 l2 r2 : list ascii) :
  q ∉ l1 → q ∉ r1 → l2 ++ q :: r2 = l1 ++ q :: r1 → l2 = l1 ∧ r2 = r1.
Proof.
  revert l2. induction l1 as [|a l1 IH]; intros l2 Hl Hr Heq.
  - destruct l2 as [|x l2]; cbn in Heq.
    + by injection Heq as ->.
    + injection Heq as -> Heq. destruct Hr. rewrite <- Heq.
      apply elem_of_app. right. apply list_elem_of_here.
  - rewrite not_elem_of_cons in Hl. destruct Hl as [Hne Hl].
    destruct l2 as [|x l2]; cbn in Heq.
    + injection Heq as -> _. done.
    + injection Heq as -> Heq. destruct (IH l2 Hl Hr Heq) as [-> ->]. done.
Qed.

(** X5. An address written between quotes is read back as it was written:
    on a value made of a quote-free prefix, a quote, an address with text
    around its at sign and its dot and no line feed, a quote and a
    quote-free rest, FindStringSubmatch returns the quoted address and, as
    group 1, the address itself. *)
Theorem FindStringSubmatch_quoted_address (v : string)
    (pre a b c post : list ascii) :
  String.list_ascii_of_string v
  = pre ++ quote_char :: (a ++ "@"%char :: b ++ "."%char :: c) ++ quote_char :: post →
  email_shape a b c →
  quote_char ∉ pre ++ (a ++ "@"%char :: b ++ "."%char :: c) ++ post →
  FindStringSubmatch v
  = [ String.string_of_list_ascii
        (quote_char :: (a ++ "@"%char :: b ++ "."%char :: c) ++ [quote_char]);
      String.string_of_list_ascii (a ++ "@"%char :: b ++ "."%char :: c) ].
Proof.
  intros Hv Hshape Hq.
  assert (quote_char ∉ pre) as Hpre
    by (intros ?; apply Hq, elem_of_app; by left).
  assert (quote_char ∉ a ++ "@"%char :: b ++ "."%char :: c) as He
    by (intros ?; apply Hq, elem_of_app; right; apply elem_of_app; by left).
  assert (quote_char ∉ post) as Hpost
    by (intros ?; apply Hq, elem_of_app; right; apply elem_of_app; by right).
  unfold FindStringSubmatch. rewrite Hv, search_skip by done.
  pose proof (match_here_complete a b c post Hshape) as [[o cl] Hm].
  rewrite <- shape_app_assoc in Hm. rewrite (search_at_match _ _ Hm).
  apply match_here_sound in Hm as (a' & b' & c' & post' & Ho & Ho' & -> & _).
  injection Ho as Ho. rewrite Ho' in Ho. rewrite <- shape_app_assoc in Ho.
  symmetry in Ho. apply split_at_unique_sep in Ho as [Hgroup ->]; [| done..].
  rewrite Ho', <- shape_app_assoc, Hgroup, take_group. done.
Qed.

Lemma list_ascii_of_string_app (s1 s2 : string) :
  String.list_ascii_of_string (s1 +:+ s2)
  = String.list_ascii_of_string s1 ++ String.list_ascii_of_string s2.
Proof. induction s1 as [|c s1 IH]; [done |]. rewrite app_cons. cbn. by rewrite IH. Qed.

(** X6. FindStringSubmatch returns either nil, exactly when the value
    does not match the pattern, or two strings: a match, which is group 1
    between two quotes, and group 1, which has text on both sides of an at
    sign and of a later dot, holds no line feed, and stands between two
    quotes of the value. *)
Theorem FindStringSubmatch_nil_or_pair (v : string) :
  (FindStringSubmatch v = [] ∧ ¬ matches_quotedEmailPattern v)
  ∨ (∃ e pre a b c post,
       FindStringSubmatch v = [quote +:+ e +:+ quote; e]
       ∧ String.list_ascii_of_string v
         = pre ++ quote_char :: String.list_ascii_of_string e ++ quote_char :: post
       ∧ String.list_ascii_of_string e = a ++ "@"%char :: b ++ "."%char :: c
       ∧ email_shape a b c).
Proof.
  destruct (FindStringSubmatch v !! 1%nat) as [e |] eqn:He.
  - right. pose proof (FindStringSubmatch_group v e He)
      as (pre & a & b & c & post & Hv & Hshape & Hsh).
    exists e, pre, a, b, c, post. split; [| done].
    unfold FindStringSubmatch in *.
    destruct (search _) as [[o cl] |]; [| done].
    cbn in He. injection He as <-. f_equal.
    rewrite <- (String.string_of_list_ascii_of_string
                  (quote +:+ String.string_of_list_ascii _ +:+ quote)).
    f_equal. rewrite !list_ascii_of_string_app.
    by rewrite String.list_ascii_of_string_of_list_ascii.
  - left. split.
    + unfold FindStringSubmatch in *. by destruct (search _) as [[o cl] |].
    + intros Hm%FindStringSubmatch_group_iff. rewrite He in Hm. by destruct Hm.
Qed.

Lemma ToLower_ascii_normal_witness :
  string_forall isASCII "Serving-NIGHTLY" = true
  ∧ string_exists isUpper (ToLower (λ s, s) "Serving-NIGHTLY") = false
  ∧ string_forall isASCII (ToLower (λ s, s) "Serving-NIGHTLY") = true
  ∧ String.length (ToLower (λ s, s) "Serving-NIGHTLY") = String.length "Serving-NIGHTLY"
  ∧ ToLower (λ s, s) (ToLower (λ s, s) "Serving-NIGHTLY")
    = ToLower (λ s, s) "Serving-NIGHTLY".
Proof.
  split; [reflexivity |].
  apply (ToLower_ascii_normal (λ s, s) "Serving-NIGHTLY"). reflexivity.
Defined.

(** The value the generator stores under alert_options, in its parts. *)
Definition sampleAlertOptions : string :=
  nl +:+ "    alert_mail_to_addresses: " +:+ quote +:+
  "serverless-engprod-sea@google.com" +:+ quote.
Definition samplePrefix : list ascii :=
  String.list_ascii_of_string (nl +:+ "    alert_mail_to_addresses: ").
Definition sampleLocal : list ascii := String.list_ascii_of_string "serverless-engprod-sea".
Definition sampleDomain : list ascii := String.list_ascii_of_string "google".
Definition sampleTop : list ascii := String.list_ascii_of_string "com".

Lemma FindStringSubmatch_quoted_address_witness :
  String.list_ascii_of_string sampleAlertOptions
  = samplePrefix ++ quote_char
    :: (sampleLocal ++ "@"%char :: sampleDomain ++ "."%char :: sampleTop)
    ++ quote_char :: []
  ∧ email_shape sampleLocal sampleDomain sampleTop
  ∧ (quote_char ∉ samplePrefix
                  ++ (sampleLocal ++ "@"%char :: sampleDomain ++ "."%char :: sampleTop)
                  ++ [])
  ∧ FindStringSubmatch sampleAlertOptions
    = [ String.string_of_list_ascii
          (quote_char
           :: (sampleLocal ++ "@"%char :: sampleDomain ++ "."%char :: sampleTop)
           ++ [quote_char]);
        String.string_of_list_ascii
          (sampleLocal ++ "@"%char :: sampleDomain ++ "."%char :: sampleTop) ].
Proof.
  assert (email_shape sampleLocal sampleDomain sampleTop) as Hshape
    by (repeat split; done).
  assert (quote_char ∉ (samplePrefix
                        ++ (sampleLocal ++ "@"%char :: sampleDomain ++ "."%char :: sampleTop)
                        ++ [])) as Hq
    by (vm_compute; intros H; repeat (apply elem_of_cons in H as [H | H]; [discriminate |]);
        by apply elem_of_nil in H).
  split; [reflexivity |]. split; [exact Hshape |]. split; [exact Hq |].
  exact (FindStringSubmatch_quoted_address sampleAlertOptions samplePrefix
           sampleLocal sampleDomain sampleTop [] eq_refl Hshape Hq).
Defined.

End GoStrings.

(* ================================================================== *)
(** * First-seen order *)
(* ================================================================== *)

(** The reading of first-seen order, no duplicates used in the statements
    below: every element is kept at its first occurrence and dropped at
    every later one. *)

Section FirstSeen.
Context {A : Type} `{EqDecision A}.

Fixpoint first_seen (l : list A) : list A :=
  match l with
  | [] => []
  | x :: l' => x :: filter (λ y, y ≠ x) (first_seen l')
  end.

Lemma elem_of_first_seen (l : list A) x : x ∈ first_seen l ↔ x ∈ l.
Proof.
  induction l as [|a l IH]; [done |]. cbn.
  rewrite !elem_of_cons, list_elem_of_filter, IH.
  destruct (decide (x = a)); intuition congruence.
Qed.

Lemma NoDup_first_seen (l : list A) : NoDup (first_seen l).
Proof.
  induction l as [|a l IH]; cbn; [constructor |].
  apply NoDup_cons. split.
  - rewrite list_elem_of_filter. by intros [? _].
  - by apply NoDup_filter.
Qed.

(** Appending a name that is new puts it last; appending one already seen
    changes nothing: the step every append-if-absent loop of the generator
    takes. *)
Lemma first_seen_snoc (l : list A) x :
  first_seen (l ++ [x]) = if decide (x ∈ l) then first_seen l else first_seen l ++ [x].
Proof.
  induction l as [|a l IH]; cbn.
  - by rewrite decide_False by apply not_elem_of_nil.
  - rewrite IH. destruct (decide (x = a)) as [-> | Hne].
    + rewrite (decide_True (P := a ∈ a :: l)) by apply list_elem_of_here.
      destruct (decide (a ∈ l)); [done |].
      rewrite filter_app, filter_cons_False by (by intros ?).
      by rewrite filter_nil, app_nil_r.
    + destruct (decide (x ∈ l)) as [Hin | Hnin].
      * by rewrite decide_True by (by apply list_elem_of_further).
      * rewrite decide_False by (rewrite elem_of_cons; by intros [? | ?]).
        rewrite filter_app, filter_cons_True by done.
        by rewrite filter_nil.
Qed.

Lemma first_seen_NoDup_id (l : list A) : NoDup l → first_seen l = l.
Proof.
  induction 1 as [|x l Hx Hl IH]; [done |]. cbn. rewrite IH. f_equal.
  clear IH Hl. induction l as [|y l IH]; [done |].
  rewrite not_elem_of_cons in Hx. destruct Hx as [Hne Hx].
  rewrite filter_cons_True by done. by rewrite IH.
Qed.

End FirstSeen.

Example first_seen_example :
  first_seen ["b"; "a"; "b"; "c"; "a"] = ["b"; "a"; "c"].
Proof. reflexivity. Qed.

(* ================================================================== *)
(** * tools/config-generator/testgrid_config.go *)
(* ================================================================== *)

Module TestGrid.
Import GoStrings.

(** baseOptions setting for testgrid dashboard tabs *)
Definition testgridTabGroupByDir : string :=
  "exclude-filter-by-regex=Overall$&group-by-directory=&expand-groups=&sort-by-name=".
Definition testgridTabGroupByTarget : string :=
  "exclude-filter-by-regex=Overall$&group-by-target=&expand-groups=&sort-by-name=".
Definition testgridTabSortByName : string := "sort-by-name=".
Definition testgridTabSortByFailures : string := "sort-by-failures=".

Definition generalTestgridConfig : string := "testgrid_config_header.yaml".
Definition testGroupTemplate : string := "testgrid_testgroup.yaml".
Definition dashboardTabTemplate : string := "testgrid_dashboardtab.yaml".
Definition dashboardGroupTemplate : string := "testgrid_dashboardgroup.yaml".

(** ** Template data *)

Record baseTestgridTemplateData := {
  ProwHost : string;
  TestGridHost : string;
  GubernatorHost : string;
  TestGridGcsBucket : string;
  TestGroupName : string;
  Year : Z
}.

(** The zero value a [var data ...] declaration starts from, with the one
    field the generator assigns. *)
Definition baseWithTestGroupName (testGroupName : string) : baseTestgridTemplateData :=
  {| ProwHost := ""; TestGridHost := ""; GubernatorHost := "";
     TestGridGcsBucket := ""; TestGroupName := testGroupName; Year := 0 |}.

Record testGroupTemplateData := {
  tg_Base : baseTestgridTemplateData;
  tg_GcsLogDir : string;
  tg_Extras : gmap string string
}.

Record dashboardTabTemplateData := {
  dt_Base : baseTestgridTemplateData;
  dt_Name : string;
  dt_BaseOptions : string;
  dt_Extras : gmap string string
}.

Record dashboardGroupTemplateData := {
  dg_Name : string;
  dg_RepoNames : list string
}.

Inductive templateData :=
| TestGroupData (d : testGroupTemplateData)
| DashboardTabData (d : dashboardTabTemplateData)
| DashboardGroupData (d : dashboardGroupTemplateData).

(** ** The output sink *)

(** One write to the sink: a configuration line, or the execution of a
    named template, read from a template file, on a data record. *)
Inductive emission :=
| ConfigLine (line : string)
| TemplateExec (name : string) (templ : string) (data : templateData).

(** Modelled from the spec: the sink [output] (its declaration,
    [outputConfig], [readTemplate] and [executeTemplate] are in another file
    of the tool). The spec has it as an append-only output buffer whose
    length the section generator records; here the buffer is the sequence of
    writes and [count] is its length. *)
Definition outputter : Type := list emission.

Definition count (o : outputter) : nat := length o.

Definition outputConfig (line : string) (o : outputter) : outputter :=
  o ++ [ConfigLine line].

Definition readTemplate (file : string) : string := file.

Definition executeTemplate (name templ : string) (data : templateData)
    (o : outputter) : outputter :=
  o ++ [TemplateExec name templ data].


(** ** The metadata store *)

(** Modelled from the spec: the declarations of [JobDetailMap],
    [NonAlignedTestGroup] and [TestGridMetaData], with the fields the
    generator reads. *)
Definition JobDetailMap : Type := gmap string (list string).

Record NonAlignedTestGroup := {
  CIJobName : string;
  HumanTabName : string;
  DashboardName : string;
  DashboardGroup : string;
  BaseOptions : string;
  Extra : gmap string string
}.

Record TestGridMetaData := {
  md : gmap string (gmap string (list string));
  projNames : list string;
  repoNames : list string;
  nonAligned : list NonAlignedTestGroup
}.

(** Modelled from the spec: [NewTestGridMetaData], the empty store. *)
Definition NewTestGridMetaData : TestGridMetaData :=
  {| md := ∅; projNames := []; repoNames := []; nonAligned := [] |}.

(** Modelled from the spec: [strExists], membership of a name in a list of
    names (a name already present is never appended twice). *)
Definition strExists (l : list string) (s : string) : bool :=
  bool_decide (s ∈ l).

(** Modelled from the spec: [JobDetailMap.EnsureExists], get-or-create of
    the repo entry; returns whether it already existed. *)
Definition JobDetailMap_EnsureExists (repoName : string)
    (j : gmap string (list string)) : bool * gmap string (list string) :=
  match j !! repoName with
  | Some _ => (true, j)
  | None => (false, <[repoName := []]> j)
  end.

Definition EnsureExists (projName : string) (t : TestGridMetaData)
    : bool * TestGridMetaData :=
  match md t !! projName with
  | None =>
      (false,
       {| md := <[projName := ∅]> (md t);
          projNames :=
            if strExists (projNames t) projName then projNames t
            else projNames t ++ [projName];
          repoNames := repoNames t;
          nonAligned := nonAligned t |})
  | Some _ => (true, t)
  end.

(** Get returns the project JobDetailMap, creating it if necessary. *)
Definition Get (projName : string) (t : TestGridMetaData)
    : gmap string (list string) * TestGridMetaData :=
  let t := (EnsureExists projName t).2 in
  (default ∅ (md t !! projName), t).

(** The map [Get] returns is the one stored under the project, so the
    repo entry created through it shows in the store. *)
Definition EnsureRepo (projName repoName : string) (t : TestGridMetaData)
    : bool * TestGridMetaData :=
  let '(jdm, t) := Get projName t in
  let '(existed, jdm) := JobDetailMap_EnsureExists repoName jdm in
  let t := {| md := <[projName := jdm]> (md t);
              projNames := projNames t;
              repoNames := repoNames t;
              nonAligned := nonAligned t |} in
  if negb existed then
    (false,
     {| md := md t;
        projNames := projNames t;
        repoNames :=
          if strExists (repoNames t) repoName then repoNames t
          else repoNames t ++ [repoName];
        nonAligned := nonAligned t |})
  else (true, t).

Definition AddNonAlignedTest (n : NonAlignedTestGroup) (t : TestGridMetaData)
    : TestGridMetaData :=
  {| md := md t; projNames := projNames t; repoNames := repoNames t;
     nonAligned := nonAligned t ++ [n] |}.

(** ** Template executions *)

Definition executeTestGroupTemplate (testGroupName gcsLogDir : string)
    (extras : gmap string string) (o : outputter) : outputter :=
  executeTemplate "test group" (readTemplate testGroupTemplate)
    (TestGroupData {| tg_Base := baseWithTestGroupName testGroupName;
                      tg_GcsLogDir := gcsLogDir;
                      tg_Extras := extras |}) o.

Definition executeDashboardTabTemplate (dashboardTabName testGroupName baseOptions : string)
    (extras : gmap string string) (o : outputter) : outputter :=
  executeTemplate "dashboard tab" (readTemplate dashboardTabTemplate)
    (DashboardTabData {| dt_Base := baseWithTestGroupName testGroupName;
                         dt_Name := dashboardTabName;
                         dt_BaseOptions := baseOptions;
                         dt_Extras := extras |}) o.

Definition executeDashboardGroupTemplate (dashboardGroupName : string)
    (dashboardRepoNames : list string) (o : outputter) : outputter :=
  executeTemplate "dashboard group" (readTemplate dashboardGroupTemplate)
    (DashboardGroupData {| dg_Name := dashboardGroupName;
                           dg_RepoNames := dashboardRepoNames |}) o.

(** ** The alert options literals *)

Definition teamEmail : string := "serverless-engprod-sea@google.com".

(** The literal the test-group policy stores under [alert_options]. *)
Definition testgroupAlertOptions : string :=
  nl +:+ "    alert_mail_to_addresses: " +:+ quote +:+ teamEmail +:+ quote.

(** The literal the dashboard passes store under [alert_options]. *)
Definition dashboardAlertOptions : string :=
  nl +:+ "      alert_mail_to_addresses: " +:+ quote +:+ teamEmail +:+ quote.

(** ** Prow job annotations *)

Definition generateProwJobAnnotations (repoName jobName : string)
    (tgExtras : gmap string string) : option (list string) :=
  let annotations :=
    [ "  testgrid-dashboards: " +:+ repoName;
      "  testgrid-tab-name: " +:+ jobName ] in
  let annotations :=
    match tgExtras !! "alert_stale_results_hours" with
    | Some v =>
        annotations ++
          [ "  testgrid-alert-stale-results-hours: " +:+ quote +:+ v +:+ quote ]
    | None => annotations
    end in
  let annotations :=
    match tgExtras !! "short_text_metric" with
    | Some v => annotations ++ [ "  testgrid-in-cell-metric: " +:+ v ]
    | None => annotations
    end in
  match
    match tgExtras !! "alert_options" with
    | Some v =>
        (* index 1 of the submatch slice is the first capture group; on a
           nil slice the index expression panics *)
        email ← FindStringSubmatch v !! 1%nat;
        Some (annotations ++
                [ "  testgrid-alert-email: " +:+ quote +:+ email +:+ quote ])
    | None => Some annotations
    end
  with
  | None => None
  | Some annotations =>
      match tgExtras !! "num_failures_to_alert" with
      | Some v =>
          Some (annotations ++
                  [ "  testgrid-num-failures-to-alert: " +:+ quote +:+ v +:+ quote ])
      | None => Some annotations
      end
  end.

(** getTestGroupName get the testGroupName from the given repoName and
    jobName *)
Definition getTestGroupName (unicodeLower : string → string)
    (repoName jobName : string) : string :=
  if decide (jobName = "nightly") then
    ToLower unicodeLower ("ci-" +:+ repoName +:+ "-" +:+ jobName +:+ "-release")
  else
    ToLower unicodeLower ("ci-" +:+ repoName +:+ "-" +:+ jobName).

(** ** The generation passes *)

Section Generator.

(** Declared in other files of the tool, or in Go's library: the Unicode
    path of [strings.ToLower], [releaseRegex.FindString], [isReleased],
    [buildProjRepoStr] and the constants [GCSBucket], [LogsDir] and
    [baseIndent]. *)
Variable unicodeLower : string → string.
Variable releaseRegex_FindString : string → string.
Variable isReleased : string → bool.
Variable buildProjRepoStr : string → string → string.
Variables GCSBucket LogsDir baseIndent : string.

(** testgridEntityGenerator is a function that generates the entity given
    the repo name and job names. *)
Definition testgridEntityGenerator : Type :=
  string → string → list string → outputter → outputter.

(** The cell of the grid under a project and a repo: indexing a missing
    project yields a nil map, in which no repo exists. *)
Definition cell (t : TestGridMetaData) (projName repoName : string)
    : option (list string) :=
  default ∅ (md t !! projName) !! repoName.

(** generateTestGridSection generates the configs for a TestGrid section
    using the given generator. *)
Definition generateTestGridSection (t : TestGridMetaData) (sectionName : string)
    (generator : testgridEntityGenerator) (skipReleasedProj : bool)
    (output : outputter) : outputter :=
  let oldCount := count output in
  let output := outputConfig (sectionName +:+ ":") output in
  let output :=
    foldl (λ output projName,
             if skipReleasedProj && isReleased projName then output
             else
               let repos := default ∅ (md t !! projName) in
               foldl (λ output repoName,
                        match repos !! repoName with
                        | Some jobNames => generator projName repoName jobNames output
                        | None => output
                        end)
                     output (repoNames t))
          output (projNames t) in
  if bool_decide (count output = oldCount) then
    outputConfig (baseIndent +:+ "- name: empty") output
  else output.

Definition getGcsLogDir (testGroupName : string) : string :=
  GCSBucket +:+ "/" +:+ LogsDir +:+ "/" +:+ testGroupName.

Definition generateNonAlignedTestGroups (t : TestGridMetaData)
    (output : outputter) : outputter :=
  foldl (λ output tg,
           executeTestGroupTemplate (CIJobName tg) (getGcsLogDir (CIJobName tg))
             (Extra tg) output)
        output (nonAligned t).

Definition getTestgroupExtras (projName jobName : string) : gmap string string :=
  let extras : gmap string string := ∅ in
  if decide (jobName = "continuous") then
    if bool_decide (releaseRegex_FindString projName ≠ "") then
      let extras := <["num_failures_to_alert" := "3"]> extras in
      <["alert_options" := testgroupAlertOptions]> extras
    else
      <["alert_stale_results_hours" := "3"]> extras
  else if decide (jobName = "dot-release" ∨ jobName = "auto-release" ∨ jobName = "nightly") then
    let extras := <["num_failures_to_alert" := "1"]> extras in
    let extras := <["alert_options" := testgroupAlertOptions]> extras in
    if decide (jobName = "dot-release") then
      <["alert_stale_results_hours" := "170"]> extras
    else extras
  else if decide (jobName = "webhook-apicoverage") then
    <["alert_stale_results_hours" := "48"]> extras
  else if decide (jobName = "test-coverage") then
    <["short_text_metric" := "coverage"]> extras
  else
    <["alert_stale_results_hours" := "3"]> extras.

(** The body of the loop of [generateTestGroup]. *)
Definition generateTestGroupJob (projName projRepoStr : string)
    (output : outputter) (jobName : string) : outputter :=
  let testGroupName := getTestGroupName unicodeLower projRepoStr jobName in
  let testGroupNameForGCSLogDir :=
    if decide (jobName = "test-coverage") then
      "ci-" +:+ projRepoStr +:+ "-" +:+ "go-coverage"
    else testGroupName in
  let gcsLogDir := getGcsLogDir testGroupNameForGCSLogDir in
  let extras := getTestgroupExtras projName jobName in
  executeTestGroupTemplate testGroupName gcsLogDir extras output.

(** generateTestGroup generates the test group configuration. *)
Definition generateTestGroup (projName repoName : string) (jobNames : list string)
    (output : outputter) : outputter :=
  let projRepoStr := buildProjRepoStr projName repoName in
  foldl (generateTestGroupJob projName projRepoStr) output jobNames.

(** The body of the loop of [generateDashboard]. *)
Definition generateDashboardJob (projRepoStr : string) (noExtras : gmap string string)
    (output : outputter) (jobName : string) : outputter :=
  let testGroupName := getTestGroupName unicodeLower projRepoStr jobName in
  if decide (jobName = "continuous") then
    let extras : gmap string string := ∅ in
    let extras := <["num_failures_to_alert" := "3"]> extras in
    let extras := <["alert_options" := dashboardAlertOptions]> extras in
    let output :=
      executeDashboardTabTemplate "continuous" testGroupName testgridTabSortByName
        extras output in
    if decide (projRepoStr = "knative-serving") then
      executeDashboardTabTemplate "conformance" testGroupName
        "include-filter-by-regex=test/conformance/&sort-by-name=" extras output
    else output
  else if decide (jobName = "dot-release" ∨ jobName = "auto-release") then
    let extras : gmap string string := ∅ in
    let extras := <["num_failures_to_alert" := "1"]> extras in
    let extras := <["alert_options" := dashboardAlertOptions]> extras in
    let baseOptions := testgridTabSortByName in
    executeDashboardTabTemplate jobName testGroupName baseOptions extras output
  else if decide (jobName = "webhook-apicoverage") then
    let baseOptions := testgridTabSortByName in
    executeDashboardTabTemplate jobName testGroupName baseOptions noExtras output
  else if decide (jobName = "nightly") then
    let extras : gmap string string := ∅ in
    let extras := <["num_failures_to_alert" := "1"]> extras in
    let extras := <["alert_options" := dashboardAlertOptions]> extras in
    executeDashboardTabTemplate "nightly" testGroupName testgridTabSortByName
      extras output
  else if decide (jobName = "test-coverage") then
    executeDashboardTabTemplate "coverage" testGroupName testgridTabGroupByDir
      noExtras output
  else
    executeDashboardTabTemplate jobName testGroupName testgridTabSortByName
      noExtras output.

(** generateDashboard generates the dashboard configuration. *)
Definition generateDashboard (projName repoName : string) (jobNames : list string)
    (output : outputter) : outputter :=
  let projRepoStr := buildProjRepoStr projName repoName in
  let output :=
    outputConfig ("- name: " +:+ ToLower unicodeLower repoName +:+ nl +:+
                  baseIndent +:+ "dashboard_tab:") output in
  let noExtras : gmap string string := ∅ in
  foldl (generateDashboardJob projRepoStr noExtras) output jobNames.

(** generateNonAlignedDashboards generates some of the content under
    dashboards. *)
Definition collectByDashboardName
    (acc : list string * gmap string (list NonAlignedTestGroup))
    (tg : NonAlignedTestGroup)
    : list string * gmap string (list NonAlignedTestGroup) :=
  let '(keys, dn) := acc in
  let '(keys, dn) :=
    match dn !! DashboardName tg with
    | None => (keys ++ [DashboardName tg], <[DashboardName tg := []]> dn)
    | Some _ => (keys, dn)
    end in
  (keys, <[DashboardName tg := default [] (dn !! DashboardName tg) ++ [tg]]> dn).

Definition generateNonAlignedDashboards (t : TestGridMetaData)
    (output : outputter) : outputter :=
  let '(keys, dn) := foldl collectByDashboardName ([], ∅) (nonAligned t) in
  foldl (λ output name,
           let tgs := default [] (dn !! name) in
           let output :=
             outputConfig ("- name: " +:+ name +:+ nl +:+ baseIndent +:+
                           "dashboard_tab:") output in
           foldl (λ output tg,
                    executeDashboardTabTemplate (HumanTabName tg) (CIJobName tg)
                      (BaseOptions tg) ∅ output)
                 output tgs)
        output keys.

(** generateDashboardsForReleases generates some of the content under
    dashboards. *)
Definition generateDashboardsForReleases (t : TestGridMetaData)
    (output : outputter) : outputter :=
  foldl (λ output projName,
           if negb (isReleased projName) then output
           else
             let repos := default ∅ (md t !! projName) in
             let output :=
               outputConfig ("- name: " +:+ projName +:+ nl +:+ baseIndent +:+
                             "dashboard_tab:") output in
             foldl (λ output repoName,
                      match repos !! repoName with
                      | Some jobNames =>
                          foldl (λ output jobName,
                                   let extras : gmap string string := ∅ in
                                   let extras := <["num_failures_to_alert" := "3"]> extras in
                                   let extras := <["alert_options" := dashboardAlertOptions]> extras in
                                   let testGroupName :=
                                     getTestGroupName unicodeLower
                                       (buildProjRepoStr projName repoName) jobName in
                                   executeDashboardTabTemplate
                                     (repoName +:+ "-" +:+ jobName) testGroupName
                                     testgridTabSortByName extras output)
                                output jobNames
                      | None => output
                      end)
                   output (repoNames t))
        output (projNames t).

(** The first loop of [generateNonAlignedDashboardGroups]: collect
    dashboards by dashboard group. *)
Definition collectByDashboardGroup
    (acc : list string * gmap string (list string))
    (tg : NonAlignedTestGroup) : list string * gmap string (list string) :=
  let '(keys, dg) := acc in
  let '(keys, dg) :=
    match dg !! DashboardGroup tg with
    | None => (keys ++ [DashboardGroup tg], <[DashboardGroup tg := []]> dg)
    | Some _ => (keys, dg)
    end in
  if negb (strExists (default [] (dg !! DashboardGroup tg)) (DashboardName tg)) then
    (keys,
     <[DashboardGroup tg :=
         default [] (dg !! DashboardGroup tg) ++ [DashboardName tg]]> dg)
  else (keys, dg).

(** generateNonAlignedDashboardGroups generates some of the content under
    dashboard groups. *)
Definition generateNonAlignedDashboardGroups (t : TestGridMetaData)
    (output : outputter) : outputter :=
  let '(keys, dg) := foldl collectByDashboardGroup ([], ∅) (nonAligned t) in
  foldl (λ output group,
           let names := default [] (dg !! group) in
           executeDashboardGroupTemplate group names output)
        output keys.

(** generateDashboardGroups generates the stuff in dashboard_groups. *)
Definition generateDashboardGroups (t : TestGridMetaData)
    (output : outputter) : outputter :=
  let output := outputConfig "dashboard_groups:" output in
  foldl (λ output projName,
           if isReleased projName then output
           else
             let repos := default ∅ (md t !! projName) in
             let dashboardRepoNames :=
               foldl (λ names repoName,
                        match repos !! repoName with
                        | Some _ => names ++ [repoName]
                        | None => names
                        end)
                     [] (repoNames t) in
             executeDashboardGroupTemplate projName dashboardRepoNames output)
        output (projNames t).

(** Modelled from the spec: the driver that runs the passes in their fixed
    order against one store (it is in another file of the tool): the test
    group section, the dashboards section and the dashboard groups. *)
Definition generateTestgridConfig (t : TestGridMetaData) (output : outputter)
    : outputter :=
  let output := generateTestGridSection t "test_groups" generateTestGroup false output in
  let output := generateNonAlignedTestGroups t output in
  let output := generateTestGridSection t "dashboards" generateDashboard true output in
  let output := generateDashboardsForReleases t output in
  let output := generateNonAlignedDashboards t output in
  let output := generateDashboardGroups t output in
  generateNonAlignedDashboardGroups t output.

(** ** Statement vocabulary *)

(** The dashboard tab written for a data record. *)
Definition dashboardTab (d : dashboardTabTemplateData) : emission :=
  TemplateExec "dashboard tab" dashboardTabTemplate (DashboardTabData d).

(** The extras [generateDashboard] attaches to the tabs of a job kind, read
    off its own switch: the alerting pair for continuous and for the three
    release kinds, nothing for any other kind. *)
Definition dashboardTabExtras (jobName : string) : gmap string string :=
  if decide (jobName = "continuous") then
    <["alert_options" := dashboardAlertOptions]>
      (<["num_failures_to_alert" := "3"]> ∅)
  else if decide (jobName = "dot-release" ∨ jobName = "auto-release"
                  ∨ jobName = "nightly") then
    <["alert_options" := dashboardAlertOptions]>
      (<["num_failures_to_alert" := "1"]> ∅)
  else ∅.

(** The line an optional value contributes to a list of annotations. *)
Definition optional (f : string → string) (o : option string) : list string :=
  match o with
  | Some v => [f v]
  | None => []
  end.

Definition staleLine (v : string) : string :=
  "  testgrid-alert-stale-results-hours: " +:+ quote +:+ v +:+ quote.
Definition metricLine (v : string) : string :=
  "  testgrid-in-cell-metric: " +:+ v.
Definition emailLine (email : string) : string :=
  "  testgrid-alert-email: " +:+ quote +:+ email +:+ quote.
Definition failuresLine (v : string) : string :=
  "  testgrid-num-failures-to-alert: " +:+ quote +:+ v +:+ quote.

(** The calls that populate a store, and the store they leave. *)
Inductive call :=
| CallEnsureExists (projName : string)
| CallEnsureRepo (projName repoName : string).

Definition run_call (t : TestGridMetaData) (c : call) : TestGridMetaData :=
  match c with
  | CallEnsureExists projName => (EnsureExists projName t).2
  | CallEnsureRepo projName repoName => (EnsureRepo projName repoName t).2
  end.

Definition run (calls : list call) : TestGridMetaData :=
  foldl run_call NewTestGridMetaData calls.

Definition call_project (c : call) : string :=
  match c with
  | CallEnsureExists projName => projName
  | CallEnsureRepo projName _ => projName
  end.

Definition call_repo (c : call) : option string :=
  match c with
  | CallEnsureExists _ => None
  | CallEnsureRepo _ repoName => Some repoName
  end.


(** ** Folds that only append *)

Lemma foldl_emit {B : Type} (g : outputter → B → outputter) (f : B → emission)
    (l : list B) (o : outputter) :
  (∀ o b, b ∈ l → g o b = o ++ [f b]) →
  foldl g o l = o ++ (f <$> l).
Proof.
  revert o. induction l as [|b l IH]; intros o Hg; cbn.
  - by rewrite app_nil_r.
  - rewrite Hg by apply list_elem_of_here.
    rewrite IH by (intros; apply Hg; by apply list_elem_of_further).
    by rewrite <- app_assoc.
Qed.


(** ** Group names *)

(** C2 (amended). getTestGroupName returns the lowercased string
    ci-repo-jobKind, and for the job kind nightly the lowercased string
    ci-repo-nightly-release: the name always starts with ci-. On ASCII
    arguments lowering is bytewise. In particular the name for Serving and
    nightly is ci-serving-nightly-release and the name for Eventing and
    continuous is ci-eventing-continuous. *)
Theorem getTestGroupName_spec (repoName jobName : string) :
  getTestGroupName unicodeLower repoName jobName
  = ToLower unicodeLower
      ("ci-" +:+ repoName +:+ "-" +:+ jobName +:+
       (if decide (jobName = "nightly") then "-release" else ""))
  ∧ (string_forall isASCII repoName = true →
     string_forall isASCII jobName = true →
     getTestGroupName unicodeLower repoName jobName
     = "ci-" +:+ string_map lowerByte repoName +:+ "-" +:+
       string_map lowerByte jobName +:+
       (if decide (jobName = "nightly") then "-release" else ""))
  ∧ getTestGroupName unicodeLower "Serving" "nightly" = "ci-serving-nightly-release"
  ∧ getTestGroupName unicodeLower "Eventing" "continuous" = "ci-eventing-continuous".
Proof.
  assert (getTestGroupName unicodeLower repoName jobName
          = ToLower unicodeLower
              ("ci-" +:+ repoName +:+ "-" +:+ jobName +:+
               (if decide (jobName = "nightly") then "-release" else ""))) as Heq.
  { unfold getTestGroupName. case_decide; [done |]. by rewrite app_empty_r. }
  split; [done |]. split; [| done].
  intros Hrepo Hjob. rewrite Heq, ToLower_ascii.
  - rewrite !string_map_app. by case_decide.
  - rewrite !string_forall_app, Hrepo, Hjob. by case_decide.
Qed.

(** ** Log directories of the test-group pass *)

(** C10. In the test-group pass every job kind gets one test group named
    by getTestGroupName; its log directory is GCSBucket/LogsDir/ followed
    by the test group name, except for test-coverage, whose log directory
    ends in ci-projRepoStr-go-coverage instead. *)
Theorem generateTestGroup_log_dirs (projName repoName : string)
    (jobNames : list string) (output : outputter) :
  generateTestGroup projName repoName jobNames output
  = output ++
    ((λ jobName,
        TemplateExec "test group" testGroupTemplate
          (TestGroupData
             {| tg_Base :=
                  baseWithTestGroupName
                    (getTestGroupName unicodeLower
                       (buildProjRepoStr projName repoName) jobName);
                tg_GcsLogDir :=
                  GCSBucket +:+ "/" +:+ LogsDir +:+ "/" +:+
                  (if decide (jobName = "test-coverage") then
                     "ci-" +:+ buildProjRepoStr projName repoName +:+ "-go-coverage"
                   else
                     getTestGroupName unicodeLower
                       (buildProjRepoStr projName repoName) jobName);
                tg_Extras := getTestgroupExtras projName jobName |}))
       <$> jobNames).
Proof.
  unfold generateTestGroup. apply foldl_emit. intros o jobName _.
  unfold generateTestGroupJob, executeTestGroupTemplate, executeTemplate,
    readTemplate, getGcsLogDir.
  by case_decide.
Qed.

(** ** Prow job annotations *)

(** C6. After the two lines naming the dashboard and the tab,
    generateProwJobAnnotations renders alert_stale_results_hours,
    short_text_metric, the e-mail found in alert_options and
    num_failures_to_alert, in this order, leaving out every key that is
    absent. When alert_options is present and its value holds no quoted
    string with an at sign and a dot, the function panics; when the key is
    absent, or its value matches the pattern, the function returns. *)
Theorem generateProwJobAnnotations_spec (repoName jobName : string)
    (tgExtras : gmap string string) :
  generateProwJobAnnotations repoName jobName tgExtras
  = (emailLines ← match tgExtras !! "alert_options" with
                  | None => Some []
                  | Some v => (λ email, [emailLine email]) <$> FindStringSubmatch v !! 1%nat
                  end;
     Some ([ "  testgrid-dashboards: " +:+ repoName;
             "  testgrid-tab-name: " +:+ jobName ]
           ++ optional staleLine (tgExtras !! "alert_stale_results_hours")
           ++ optional metricLine (tgExtras !! "short_text_metric")
           ++ emailLines
           ++ optional failuresLine (tgExtras !! "num_failures_to_alert")))
  ∧ (∀ v, tgExtras !! "alert_options" = Some v → ¬ has_quoted_email v →
          generateProwJobAnnotations repoName jobName tgExtras = None)
  ∧ (∀ v, tgExtras !! "alert_options" = Some v → matches_quotedEmailPattern v →
          is_Some (generateProwJobAnnotations repoName jobName tgExtras))
  ∧ (tgExtras !! "alert_options" = None →
     is_Some (generateProwJobAnnotations repoName jobName tgExtras)).
Proof.
  assert (generateProwJobAnnotations repoName jobName tgExtras
          = (emailLines ← match tgExtras !! "alert_options" with
                          | None => Some []
                          | Some v =>
                              (λ email, [emailLine email]) <$> FindStringSubmatch v !! 1%nat
                          end;
             Some ([ "  testgrid-dashboards: " +:+ repoName;
                     "  testgrid-tab-name: " +:+ jobName ]
                   ++ optional staleLine (tgExtras !! "alert_stale_results_hours")
                   ++ optional metricLine (tgExtras !! "short_text_metric")
                   ++ emailLines
                   ++ optional failuresLine (tgExtras !! "num_failures_to_alert")))) as Heq.
  { unfold generateProwJobAnnotations.
    destruct (tgExtras !! "alert_stale_results_hours");
      destruct (tgExtras !! "short_text_metric");
      destruct (tgExtras !! "alert_options") as [v |];
      try destruct (FindStringSubmatch v !! 1%nat);
      destruct (tgExtras !! "num_failures_to_alert"); reflexivity. }
  split; [done |]. rewrite Heq. repeat split.
  - intros v -> Hno. cbn.
    destruct (FindStringSubmatch v !! 1%nat) as [e |] eqn:He; [| done].
    destruct Hno. apply FindStringSubmatch_group_quoted. by rewrite He.
  - intros v -> [e ->]%FindStringSubmatch_group_iff. cbn. eauto.
  - intros ->. cbn. eauto.
Qed.

(** ** Extras of the aligned dashboard pass *)

Lemma dashboardTabExtras_differs (projName jobName : string) :
  dashboardTabExtras jobName ≠ getTestgroupExtras projName jobName.
Proof using releaseRegex_FindString.
  unfold dashboardTabExtras, getTestgroupExtras. intros H.
  repeat case_decide; try case_bool_decide; subst;
    first
      [ apply (f_equal (λ m : gmap string string, m !! "alert_options")) in H;
        vm_compute in H; discriminate
      | apply (f_equal (λ m : gmap string string, m !! "alert_stale_results_hours")) in H;
        vm_compute in H; discriminate
      | apply (f_equal (λ m : gmap string string, m !! "short_text_metric")) in H;
        vm_compute in H; discriminate
      | intuition congruence ].
Qed.

(** C1 (amended). The tabs the aligned-dashboard pass writes for a job
    kind carry the extras of generateDashboard's own table, keyed by the
    job kind alone: num_failures_to_alert 3 and alert_options for
    continuous, num_failures_to_alert 1 and alert_options for dot-release,
    auto-release and nightly, and none for every other kind. These are for
    no project and job kind the extras getTestgroupExtras returns; a tab
    never carries alert_stale_results_hours or short_text_metric. *)
Theorem generateDashboard_extras (projName repoName jobName : string)
    (output : outputter) :
  (∃ tabs,
     generateDashboard projName repoName [jobName] output
     = output ++
       ConfigLine ("- name: " +:+ ToLower unicodeLower repoName +:+ nl +:+
                   baseIndent +:+ "dashboard_tab:")
       :: (dashboardTab <$> tabs)
     ∧ tabs ≠ []
     ∧ Forall (λ d, dt_Extras d = dashboardTabExtras jobName) tabs)
  ∧ dashboardTabExtras jobName ≠ getTestgroupExtras projName jobName
  ∧ dashboardTabExtras jobName !! "alert_stale_results_hours" = None
  ∧ dashboardTabExtras jobName !! "short_text_metric" = None.
Proof using unicodeLower releaseRegex_FindString buildProjRepoStr baseIndent.
  clear isReleased GCSBucket LogsDir.
  split; [| split; [apply dashboardTabExtras_differs |]].
  - unfold generateDashboard, generateDashboardJob, dashboardTabExtras,
      executeDashboardTabTemplate, executeTemplate, readTemplate, outputConfig.
    cbn [foldl].
    repeat case_decide; subst; try (exfalso; intuition congruence);
      rewrite <- ?app_assoc; cbn [app];
      first [ eexists [_; _]; split; [reflexivity |]; split; [done |];
              repeat constructor
            | eexists [_]; split; [reflexivity |]; split; [done |];
              repeat constructor ].
  - unfold dashboardTabExtras. by repeat case_decide.
Qed.

(** ** The order lists of the store *)

(** What a prefix of calls establishes about the project side of the
    store, and about its repo side. *)
Definition proj_inv (ps : list string) (t : TestGridMetaData) : Prop :=
  projNames t = first_seen ps ∧ ∀ p, is_Some (md t !! p) ↔ p ∈ ps.

Definition repo_inv (rs : list string) (t : TestGridMetaData) : Prop :=
  repoNames t = first_seen rs
  ∧ ∀ p j r, md t !! p = Some j → is_Some (j !! r) → r ∈ rs.

Lemma strExists_first_seen (l : list string) (s : string) :
  (if strExists (first_seen l) s then first_seen l else first_seen l ++ [s])
  = first_seen (l ++ [s]).
Proof.
  unfold strExists. rewrite first_seen_snoc.
  case_bool_decide as Hin; rewrite elem_of_first_seen in Hin.
  - by rewrite decide_True.
  - by rewrite decide_False.
Qed.

Lemma NewTestGridMetaData_inv : proj_inv [] NewTestGridMetaData ∧ repo_inv [] NewTestGridMetaData.
Proof.
  split; (split; [done |]); cbn.
  - intros p. rewrite lookup_empty. split; [by intros [? ?] | by intros ?%elem_of_nil].
  - intros p j r. by rewrite lookup_empty.
Qed.

Lemma EnsureExists_proj_inv ps t p :
  proj_inv ps t → proj_inv (ps ++ [p]) (EnsureExists p t).2.
Proof.
  intros [Hnames Hmd]. unfold proj_inv, EnsureExists.
  destruct (md t !! p) as [j |] eqn:Hp; cbn.
  - assert (p ∈ ps) as Hin by (apply Hmd; by rewrite Hp).
    split.
    + by rewrite Hnames, first_seen_snoc, decide_True.
    + intros q. rewrite Hmd, elem_of_app, list_elem_of_singleton.
      split; [by left | by intros [? | ->]].
  - split.
    + rewrite Hnames. apply strExists_first_seen.
    + intros q. rewrite elem_of_app, list_elem_of_singleton, <- Hmd.
      destruct (decide (p = q)) as [-> | Hne].
      * rewrite lookup_insert_eq. split; [by right | eauto].
      * rewrite lookup_insert_ne by done. split; [by left | by intros [? | ->]].
Qed.

Lemma EnsureExists_repo_inv rs t p :
  repo_inv rs t → repo_inv rs (EnsureExists p t).2.
Proof.
  intros [Hnames Hmd]. unfold repo_inv, EnsureExists.
  destruct (md t !! p) as [j |] eqn:Hp; cbn; [done |].
  split; [done |]. intros q j r.
  destruct (decide (p = q)) as [-> | Hne].
  - rewrite lookup_insert_eq. intros [= <-]. rewrite lookup_empty. by intros [? ?].
  - rewrite lookup_insert_ne by done. apply Hmd.
Qed.

Lemma EnsureExists_creates t p : is_Some (md (EnsureExists p t).2 !! p).
Proof.
  unfold EnsureExists. destruct (md t !! p) eqn:Hp; cbn.
  - by rewrite Hp.
  - rewrite lookup_insert_eq. eauto.
Qed.

Lemma EnsureRepo_inv ps rs t p r :
  proj_inv ps t → repo_inv rs t →
  proj_inv (ps ++ [p]) (EnsureRepo p r t).2
  ∧ repo_inv (rs ++ [r]) (EnsureRepo p r t).2.
Proof.
  intros Hproj Hrepo.
  pose proof (EnsureExists_proj_inv ps t p Hproj) as [Hnames1 Hmd1].
  pose proof (EnsureExists_repo_inv rs t p Hrepo) as [Hnames2 Hmd2].
  pose proof (EnsureExists_creates t p) as [jdm Hjdm].
  unfold proj_inv, repo_inv, EnsureRepo, Get. cbn zeta. set (t1 := (EnsureExists p t).2) in *.
  rewrite Hjdm. cbn [default]. unfold JobDetailMap_EnsureExists.
  assert (∀ v q, is_Some (<[p := v]> (md t1) !! q) ↔ q ∈ ps ++ [p]) as Hkeys.
  { intros v q. rewrite <- Hmd1. destruct (decide (p = q)) as [-> | Hne].
    - rewrite lookup_insert_eq, Hjdm. split; eauto.
    - by rewrite lookup_insert_ne. }
  destruct (jdm !! r) as [jobs |] eqn:Hr; cbn; rewrite Hr; cbn.
  - assert (r ∈ rs) as Hin by (eapply Hmd2; [done | by rewrite Hr]).
    split; [split; [done | apply Hkeys] |]. split.
    + by rewrite Hnames2, first_seen_snoc, decide_True.
    + intros q j r'. rewrite elem_of_app. destruct (decide (p = q)) as [-> | Hne].
      * rewrite lookup_insert_eq. intros [= <-] ?. left. by eapply Hmd2.
      * rewrite lookup_insert_ne by done. intros ??. left. by eapply Hmd2.
  - split; [split; [done | apply Hkeys] |]. split.
    + rewrite Hnames2. apply strExists_first_seen.
    + intros q j r'. rewrite elem_of_app, list_elem_of_singleton.
      destruct (decide (p = q)) as [-> | Hne].
      * rewrite lookup_insert_eq. intros [= <-].
        destruct (decide (r = r')) as [-> | Hne']; [by right |].
        rewrite lookup_insert_ne by done. intros ?. left. by eapply Hmd2.
      * rewrite lookup_insert_ne by done. intros ??. left. by eapply Hmd2.
Qed.

Lemma run_inv (calls : list call) :
  proj_inv (call_project <$> calls) (run calls)
  ∧ repo_inv (omap call_repo calls) (run calls).
Proof.
  unfold run. induction calls as [|c calls IH] using rev_ind.
  - apply NewTestGridMetaData_inv.
  - destruct IH as [Hproj Hrepo].
    rewrite foldl_snoc, fmap_app, omap_app. destruct c as [p | p r]; cbn.
    + rewrite app_nil_r. split.
      * by apply EnsureExists_proj_inv.
      * by apply EnsureExists_repo_inv.
    + by apply EnsureRepo_inv.
Qed.

(** C5. After any sequence of EnsureExists and EnsureRepo calls on an
    empty store, projNames and repoNames have no duplicates and list the
    project names and the repo names of the calls in the order they were
    first seen; every project key of the map is in projNames and every repo
    key of any project's JobDetailMap is in repoNames. *)
Theorem Ensure_order_lists (calls : list call) :
  NoDup (projNames (run calls))
  ∧ NoDup (repoNames (run calls))
  ∧ projNames (run calls) = first_seen (call_project <$> calls)
  ∧ repoNames (run calls) = first_seen (omap call_repo calls)
  ∧ (∀ p, is_Some (md (run calls) !! p) → p ∈ projNames (run calls))
  ∧ (∀ p j r, md (run calls) !! p = Some j → is_Some (j !! r) →
              r ∈ repoNames (run calls)).
Proof.
  destruct (run_inv calls) as [[Hp Hmdp] [Hr Hmdr]].
  rewrite Hp, Hr. repeat split; try apply NoDup_first_seen.
  - intros p. rewrite elem_of_first_seen. apply Hmdp.
  - intros p j r ??. rewrite elem_of_first_seen. by eapply Hmdr.
Qed.

Example Ensure_order_lists_example :
  let t := run [ CallEnsureRepo "knative" "serving";
                 CallEnsureExists "google";
                 CallEnsureRepo "knative" "eventing";
                 CallEnsureRepo "google" "serving";
                 CallEnsureExists "knative" ] in
  projNames t = ["knative"; "google"] ∧ repoNames t = ["serving"; "eventing"].
Proof. split; reflexivity. Qed.

(** ** The section generator *)

Lemma generateTestGridSection_no_projects (t : TestGridMetaData)
    (sectionName : string) (generator : testgridEntityGenerator)
    (skipReleasedProj : bool) (output : outputter) :
  projNames t = [] →
  generateTestGridSection t sectionName generator skipReleasedProj output
  = output ++ [ConfigLine (sectionName +:+ ":")].
Proof.
  intros Hp. unfold generateTestGridSection. rewrite Hp. cbn [foldl].
  rewrite bool_decide_eq_false_2; [done |].
  unfold count, outputConfig. rewrite length_app. cbn. lia.
Qed.

Lemma foldl_count_mono {B : Type} (f : outputter → B → outputter)
    (l : list B) (o : outputter) :
  (∀ o b, (count o ≤ count (f o b))%nat) → (count o ≤ count (foldl f o l))%nat.
Proof.
  intros Hf. revert o. induction l as [|b l IH]; intros o; cbn; [done |].
  etrans; [apply (Hf o b) | apply IH].
Qed.

(** With a generator that only appends, the guard of the placeholder never
    holds, on any store: the section is the header followed by the walk. *)
Lemma generateTestGridSection_guard_never_holds (t : TestGridMetaData)
    (sectionName : string) (generator : testgridEntityGenerator)
    (skipReleasedProj : bool) (output : outputter) :
  (∀ p r jobNames o, (count o ≤ count (generator p r jobNames o))%nat) →
  generateTestGridSection t sectionName generator skipReleasedProj output
  = foldl (λ output projName,
             if skipReleasedProj && isReleased projName then output
             else
               foldl (λ output repoName,
                        match cell t projName repoName with
                        | Some jobNames => generator projName repoName jobNames output
                        | None => output
                        end)
                     output (repoNames t))
          (output ++ [ConfigLine (sectionName +:+ ":")]) (projNames t).
Proof.
  intros Hgen. unfold generateTestGridSection, cell. cbv zeta.
  rewrite bool_decide_eq_false_2; [done |].
  match goal with
  | |- count (foldl ?f ?o ?l) ≠ _ =>
      pose proof (foldl_count_mono f l o) as Hmono
  end.
  unfold outputConfig in *. unfold count at 3 in Hmono.
  rewrite length_app in Hmono. cbn [length] in Hmono.
  unfold count at 2. enough (length output + 1 ≤ count
    (foldl (λ output0 projName,
              if skipReleasedProj && isReleased projName then output0
              else
                foldl (λ output1 repoName,
                         match default ∅ (md t !! projName) !! repoName with
                         | Some jobNames => generator projName repoName jobNames output1
                         | None => output1
                         end)
                      output0 (repoNames t))
           (output ++ [ConfigLine (sectionName +:+ ":")]) (projNames t)))%nat by lia.
  apply Hmono. intros o p. destruct (skipReleasedProj && isReleased p); [done |].
  apply foldl_count_mono. intros o' r.
  destruct (default ∅ (md t !! p) !! r); [apply Hgen | done].
Qed.

(** C3 (the code at the failing input). On the empty store, for any
    section name and generator, generateTestGridSection writes the section
    header and nothing after it: the count recorded before the header is
    written is never the count after it, so the placeholder entry is not
    written. *)
Theorem generateTestGridSection_empty_store (sectionName : string)
    (generator : testgridEntityGenerator) (skipReleasedProj : bool) :
  generateTestGridSection NewTestGridMetaData sectionName generator
    skipReleasedProj []
  = [ConfigLine (sectionName +:+ ":")].
Proof. by rewrite generateTestGridSection_no_projects. Qed.

(** ** Dashboard groups of the non-aligned entries *)

Lemma filter_group_nil (l : list NonAlignedTestGroup) (g : string) :
  g ∉ DashboardGroup <$> l → filter (λ tg, DashboardGroup tg = g) l = [].
Proof.
  induction l as [|tg l IH]; [done |]. rewrite fmap_cons, not_elem_of_cons.
  intros [Hne Hnin]. rewrite filter_cons_False by done. by apply IH.
Qed.

Lemma collectByDashboardGroup_inv (l : list NonAlignedTestGroup) :
  (foldl collectByDashboardGroup ([], ∅) l).1 = first_seen (DashboardGroup <$> l)
  ∧ ∀ g,
      (foldl collectByDashboardGroup ([], ∅) l).2 !! g
      = if decide (g ∈ DashboardGroup <$> l) then
          Some (first_seen (DashboardName <$> filter (λ tg, DashboardGroup tg = g) l))
        else None.
Proof.
  induction l as [|tg l [IHk IHd]] using rev_ind.
  - split; [done |]. intros g. cbn. rewrite lookup_empty.
    by rewrite decide_False by apply not_elem_of_nil.
  - rewrite foldl_snoc.
    destruct (foldl collectByDashboardGroup ([], ∅) l) as [keys dg].
    cbn [fst snd] in IHk, IHd. unfold collectByDashboardGroup.
    rewrite fmap_app. cbn [fmap list_fmap]. rewrite first_seen_snoc.
    pose proof (IHd (DashboardGroup tg)) as Hg.
    destruct (decide (DashboardGroup tg ∈ DashboardGroup <$> l)) as [Hin | Hnin].
    + rewrite Hg. cbv beta iota zeta. rewrite Hg. cbn [default]. unfold strExists.
      set (names := first_seen
                      (DashboardName <$>
                       filter (λ tg0, DashboardGroup tg0 = DashboardGroup tg) l)) in *.
      assert (∀ g, g ∈ (DashboardGroup <$> l) ++ [DashboardGroup tg]
                   ↔ g ∈ DashboardGroup <$> l) as Hmem.
      { intros g. rewrite elem_of_app, list_elem_of_singleton.
        split; [by intros [? | ->] | by left]. }
      case_bool_decide as Hn; cbn [negb fst snd]; (split; [done |]); intros g;
        rewrite (decide_ext _ _ _ _ (Hmem g)), filter_app, fmap_app;
        destruct (decide (g = DashboardGroup tg)) as [-> | Hne].
      * rewrite filter_cons_True by done. cbn [filter list_filter fmap list_fmap].
        rewrite Hg, decide_True by done. f_equal.
        rewrite first_seen_snoc, decide_True; [done |].
        by apply elem_of_first_seen.
      * rewrite filter_cons_False by congruence.
        cbn [filter list_filter fmap list_fmap]. by rewrite app_nil_r, IHd.
      * rewrite filter_cons_True by done. cbn [filter list_filter fmap list_fmap].
        rewrite lookup_insert_eq, decide_True by done. f_equal.
        rewrite first_seen_snoc, decide_False; [done |].
        by rewrite <- elem_of_first_seen.
      * rewrite filter_cons_False by congruence.
        cbn [filter list_filter fmap list_fmap].
        rewrite lookup_insert_ne by done. by rewrite app_nil_r, IHd.
    + rewrite Hg. cbv beta iota zeta. rewrite lookup_insert_eq. cbn [default].
      unfold strExists.
      rewrite bool_decide_eq_false_2 by apply not_elem_of_nil.
      cbn [negb fst snd app]. split; [by rewrite IHk |]. intros g.
      rewrite filter_app, fmap_app.
      destruct (decide (g = DashboardGroup tg)) as [-> | Hne].
      * rewrite lookup_insert_eq.
        rewrite decide_True by (rewrite elem_of_app, list_elem_of_singleton; by right).
        rewrite filter_group_nil by done.
        rewrite filter_cons_True by done. done.
      * rewrite !lookup_insert_ne by done. rewrite IHd.
        rewrite filter_cons_False by congruence.
        cbn [filter list_filter fmap list_fmap]. rewrite app_nil_r.
        apply decide_ext. rewrite elem_of_app, list_elem_of_singleton.
        split; [by left | by intros [? | ->]].
Qed.

(** C7. The dashboard-group aggregation over the non-aligned entries
    writes one group per distinct DashboardGroup value, in first-seen
    order, whose members are the DashboardName values seen under that
    group, each once, in first-seen order: the group list and every member
    list are duplicate-free and hold exactly the values observed. *)
Theorem generateNonAlignedDashboardGroups_spec (t : TestGridMetaData)
    (output : outputter) :
  generateNonAlignedDashboardGroups t output
  = output ++
    ((λ group,
        TemplateExec "dashboard group" dashboardGroupTemplate
          (DashboardGroupData
             {| dg_Name := group;
                dg_RepoNames :=
                  first_seen
                    (DashboardName <$>
                     filter (λ tg, DashboardGroup tg = group) (nonAligned t)) |}))
       <$> first_seen (DashboardGroup <$> nonAligned t))
  ∧ NoDup (first_seen (DashboardGroup <$> nonAligned t))
  ∧ (∀ group,
       group ∈ first_seen (DashboardGroup <$> nonAligned t)
       ↔ ∃ tg, tg ∈ nonAligned t ∧ DashboardGroup tg = group)
  ∧ (∀ group,
       NoDup (first_seen
                (DashboardName <$>
                 filter (λ tg, DashboardGroup tg = group) (nonAligned t)))
       ∧ ∀ name,
           name ∈ first_seen
                    (DashboardName <$>
                     filter (λ tg, DashboardGroup tg = group) (nonAligned t))
           ↔ ∃ tg, tg ∈ nonAligned t ∧ DashboardGroup tg = group
                   ∧ DashboardName tg = name).
Proof.
  split; [| split; [apply NoDup_first_seen | split]].
  - unfold generateNonAlignedDashboardGroups.
    destruct (collectByDashboardGroup_inv (nonAligned t)) as [Hkeys Hdg].
    destruct (foldl collectByDashboardGroup ([], ∅) (nonAligned t)) as [keys dg].
    cbn [fst snd] in Hkeys, Hdg. subst keys.
    apply foldl_emit. intros o group Hin. rewrite elem_of_first_seen in Hin.
    rewrite Hdg, decide_True by done. reflexivity.
  - intros group. rewrite elem_of_first_seen, list_elem_of_fmap.
    split; intros (tg & ? & ?); exists tg; by split.
  - intros group. split; [apply NoDup_first_seen |].
    intros name. rewrite elem_of_first_seen, list_elem_of_fmap.
    split.
    + intros (tg & -> & [? ?]%list_elem_of_filter). by exists tg.
    + intros (tg & ? & ? & <-). exists tg. split; [done |].
      by apply list_elem_of_filter.
Qed.

(** ** Determinism of the passes *)

(** Every pass reads the store through its order lists, its non-aligned
    entries and its cells only. *)







(** ** Further properties of the store operations *)

Lemma cell_EnsureExists (p : string) (t : TestGridMetaData) (q r : string) :
  cell (EnsureExists p t).2 q r = cell t q r.
Proof.
  unfold cell, EnsureExists. destruct (md t !! p) eqn:Hp; cbn; [done |].
  destruct (decide (p = q)) as [<- | Hne].
  - by rewrite lookup_insert_eq, Hp.
  - by rewrite lookup_insert_ne.
Qed.

Lemma EnsureExists_existing (p : string) (t : TestGridMetaData) :
  is_Some (md t !! p) → EnsureExists p t = (true, t).
Proof. intros [j Hj]. unfold EnsureExists. by rewrite Hj. Qed.

Lemma store_eta (t : TestGridMetaData) :
  {| md := md t; projNames := projNames t; repoNames := repoNames t;
     nonAligned := nonAligned t |} = t.
Proof. by destruct t. Qed.

Lemma EnsureRepo_existing (p r : string) (t : TestGridMetaData) :
  is_Some (cell t p r) → EnsureRepo p r t = (true, t).
Proof.
  unfold cell. destruct (md t !! p) as [j |] eqn:Hp; cbn; intros [jobs Hjobs];
    [| by rewrite lookup_empty in Hjobs].
  unfold EnsureRepo, Get.
  rewrite EnsureExists_existing by (by rewrite Hp). cbn. rewrite Hp. cbn.
  unfold JobDetailMap_EnsureExists. rewrite Hjobs. cbn.
  rewrite insert_id by done. by rewrite store_eta.
Qed.

Lemma EnsureRepo_missing (p r : string) (t : TestGridMetaData) :
  cell t p r = None →
  (EnsureRepo p r t).1 = false
  ∧ md (EnsureRepo p r t).2
    = <[p := <[r := []]> (default ∅ (md (EnsureExists p t).2 !! p))]>
        (md (EnsureExists p t).2).
Proof.
  intros Hnone. rewrite <- (cell_EnsureExists p t) in Hnone. unfold cell in Hnone.
  unfold EnsureRepo, Get. cbv zeta.
  set (t1 := (EnsureExists p t).2) in *.
  unfold JobDetailMap_EnsureExists. rewrite Hnone. done.
Qed.

Lemma cell_EnsureRepo (p r : string) (t : TestGridMetaData) (q r' : string) :
  cell (EnsureRepo p r t).2 q r'
  = if decide (q = p ∧ r' = r) then Some (default [] (cell t p r)) else cell t q r'.
Proof.
  destruct (cell t p r) as [jobs |] eqn:Hcell.
  - rewrite EnsureRepo_existing by (by rewrite Hcell). cbn.
    case_decide as Heq; [| done]. destruct Heq as [-> ->]. done.
  - destruct (EnsureRepo_missing p r t Hcell) as [_ Hmd].
    unfold cell at 1. rewrite Hmd. cbn.
    destruct (decide (q = p)) as [-> | Hne].
    + rewrite lookup_insert_eq. cbn.
      destruct (decide (r' = r)) as [-> | Hne'].
      * rewrite lookup_insert_eq. by rewrite decide_True.
      * rewrite lookup_insert_ne by done.
        rewrite decide_False by (by intros [_ ?]).
        by rewrite <- (cell_EnsureExists p t p r').
    + rewrite lookup_insert_ne by done.
      rewrite decide_False by (by intros [? _]).
      by rewrite <- (cell_EnsureExists p t q r').
Qed.

(** X7. EnsureExists reports whether the project was already in the map
    and leaves it there; it changes no cell, no repo name and no
    non-aligned entry, and a second call finds the project and changes
    nothing at all. *)
Theorem EnsureExists_get_or_create (p : string) (t : TestGridMetaData) :
  ((EnsureExists p t).1 = true ↔ is_Some (md t !! p))
  ∧ is_Some (md (EnsureExists p t).2 !! p)
  ∧ (∀ q r, cell (EnsureExists p t).2 q r = cell t q r)
  ∧ repoNames (EnsureExists p t).2 = repoNames t
  ∧ nonAligned (EnsureExists p t).2 = nonAligned t
  ∧ EnsureExists p (EnsureExists p t).2 = (true, (EnsureExists p t).2).
Proof.
  split; [| split; [apply EnsureExists_creates |
            split; [apply cell_EnsureExists | split; [| split]]]].
  - unfold EnsureExists. destruct (md t !! p) eqn:Hp; cbn.
    + split; eauto.
    + split; [done | by intros [? ?]].
  - unfold EnsureExists. by destruct (md t !! p).
  - unfold EnsureExists. by destruct (md t !! p).
  - apply EnsureExists_existing, EnsureExists_creates.
Qed.

(** X8. EnsureRepo reports whether the cell of the project and the repo
    already existed. Afterwards that cell exists, with the job list it had
    or with an empty one if it is new; every other cell is as before; and a
    second call finds the cell and changes nothing at all. *)
Theorem EnsureRepo_get_or_create (p r : string) (t : TestGridMetaData) :
  ((EnsureRepo p r t).1 = true ↔ is_Some (cell t p r))
  ∧ (∀ q r',
       cell (EnsureRepo p r t).2 q r'
       = if decide (q = p ∧ r' = r) then Some (default [] (cell t p r))
         else cell t q r')
  ∧ nonAligned (EnsureRepo p r t).2 = nonAligned t
  ∧ EnsureRepo p r (EnsureRepo p r t).2 = (true, (EnsureRepo p r t).2).
Proof.
  split; [| split; [apply cell_EnsureRepo | split]].
  - destruct (cell t p r) as [jobs |] eqn:Hcell.
    + rewrite EnsureRepo_existing by (by rewrite Hcell). split; eauto.
    + destruct (EnsureRepo_missing p r t Hcell) as [-> _].
      split; [done | by intros [? ?]].
  - destruct (cell t p r) as [jobs |] eqn:Hcell.
    + by rewrite EnsureRepo_existing by (by rewrite Hcell).
    + unfold EnsureRepo, Get. cbv zeta.
      assert (nonAligned (EnsureExists p t).2 = nonAligned t) as <-.
      { unfold EnsureExists. by destruct (md t !! p). }
      destruct (JobDetailMap_EnsureExists r _) as [[] ?]; done.
  - apply EnsureRepo_existing. rewrite cell_EnsureRepo.
    rewrite decide_True by done. eauto.
Qed.

Lemma cell_run_call_mono (t : TestGridMetaData) (c : call) (q r : string) :
  is_Some (cell t q r) → is_Some (cell (run_call t c) q r).
Proof.
  destruct c as [p | p r']; cbn [run_call].
  - by rewrite cell_EnsureExists.
  - rewrite cell_EnsureRepo. case_decide; [eauto | done].
Qed.

Lemma cell_run_call_empty (t : TestGridMetaData) (c : call) :
  (∀ q r jobs, cell t q r = Some jobs → jobs = []) →
  ∀ q r jobs, cell (run_call t c) q r = Some jobs → jobs = [].
Proof.
  intros Ht q r jobs. destruct c as [p | p r']; cbn [run_call].
  - rewrite cell_EnsureExists. apply Ht.
  - rewrite cell_EnsureRepo. case_decide; [| apply Ht].
    intros [= <-]. destruct (cell t p r') as [jobs' |] eqn:Hc; [| done].
    cbn. by eapply Ht.
Qed.

Lemma run_snoc (calls : list call) (c : call) :
  run (calls ++ [c]) = run_call (run calls) c.
Proof. unfold run. by rewrite foldl_snoc. Qed.

Lemma run_repo_backed (calls : list call) (r : string) :
  r ∈ omap call_repo calls →
  ∃ p, p ∈ call_project <$> calls ∧ is_Some (cell (run calls) p r).
Proof.
  induction calls as [|c calls IH] using rev_ind; [by intros ?%elem_of_nil |].
  rewrite omap_app, fmap_app, run_snoc, elem_of_app. intros [Hin | Hin].
  - destruct (IH Hin) as (p & Hp & Hcell). exists p. split.
    + apply elem_of_app. by left.
    + by apply cell_run_call_mono.
  - destruct c as [p | p r']; cbn in Hin; [by apply elem_of_nil in Hin |].
    apply list_elem_of_singleton in Hin as ->. exists p. split.
    + apply elem_of_app. right. apply list_elem_of_here.
    + cbn [run_call]. rewrite cell_EnsureRepo, decide_True by done. eauto.
Qed.

(** X9. In a store populated by EnsureExists and EnsureRepo calls alone,
    the order lists name nothing that is missing from the map: every name
    in projNames is a project of the map and every name in repoNames is a
    repo of some listed project. Every cell such calls create has an empty
    job list, and no non-aligned entry appears. *)
Theorem run_order_lists_backed (calls : list call) :
  (∀ p, p ∈ projNames (run calls) → is_Some (md (run calls) !! p))
  ∧ (∀ r, r ∈ repoNames (run calls) →
          ∃ p, p ∈ projNames (run calls) ∧ is_Some (cell (run calls) p r))
  ∧ (∀ p r jobs, cell (run calls) p r = Some jobs → jobs = [])
  ∧ nonAligned (run calls) = [].
Proof.
  destruct (run_inv calls) as [[Hp Hmdp] [Hr Hmdr]].
  split; [| split; [| split]].
  - intros p. rewrite Hp, elem_of_first_seen. apply Hmdp.
  - intros r. rewrite Hr, Hp, elem_of_first_seen.
    intros (p & Hin & Hcell)%run_repo_backed. exists p.
    by rewrite elem_of_first_seen.
  - induction calls as [|c calls IH] using rev_ind.
    + intros p r jobs. unfold cell, run. cbn. by rewrite !lookup_empty.
    + rewrite run_snoc. apply cell_run_call_empty.
      destruct (run_inv calls) as [[? ?] [? ?]]. by apply IH.
  - clear. induction calls as [|c calls IH] using rev_ind; [done |].
    rewrite run_snoc. destruct c as [p | p r]; cbn [run_call].
    + unfold EnsureExists. by destruct (md (run calls) !! p).
    + destruct (cell (run calls) p r) as [jobs |] eqn:Hcell.
      * by rewrite EnsureRepo_existing by (by rewrite Hcell).
      * unfold EnsureRepo, Get. cbv zeta.
        assert (nonAligned (EnsureExists p (run calls)).2 = []) as Hn.
        { unfold EnsureExists. by destruct (md (run calls) !! p). }
        destruct (JobDetailMap_EnsureExists r _) as [[] ?]; done.
Qed.

Lemma AddNonAlignedTest_fold (added : list NonAlignedTestGroup)
    (t : TestGridMetaData) :
  nonAligned (foldl (λ t n, AddNonAlignedTest n t) t added) = nonAligned t ++ added
  ∧ md (foldl (λ t n, AddNonAlignedTest n t) t added) = md t
  ∧ projNames (foldl (λ t n, AddNonAlignedTest n t) t added) = projNames t
  ∧ repoNames (foldl (λ t n, AddNonAlignedTest n t) t added) = repoNames t.
Proof.
  induction added as [|n added IH] using rev_ind; [by rewrite app_nil_r |].
  rewrite foldl_snoc. cbn. destruct IH as (-> & -> & -> & ->).
  by rewrite app_assoc.
Qed.

(** X10. AddNonAlignedTest appends to the non-aligned entries and touches
    nothing else; the test groups written for the non-aligned entries are
    then those written before, followed by one per added entry, in the
    order of the additions, each named by its CI job and logging under
    GCSBucket/LogsDir/ and that name, with the entry's own extras. *)
Theorem AddNonAlignedTest_appends (added : list NonAlignedTestGroup)
    (t : TestGridMetaData) (output : outputter) :
  nonAligned (foldl (λ t n, AddNonAlignedTest n t) t added) = nonAligned t ++ added
  ∧ md (foldl (λ t n, AddNonAlignedTest n t) t added) = md t
  ∧ projNames (foldl (λ t n, AddNonAlignedTest n t) t added) = projNames t
  ∧ repoNames (foldl (λ t n, AddNonAlignedTest n t) t added) = repoNames t
  ∧ generateNonAlignedTestGroups (foldl (λ t n, AddNonAlignedTest n t) t added) output
    = generateNonAlignedTestGroups t output ++
      ((λ tg,
          TemplateExec "test group" testGroupTemplate
            (TestGroupData
               {| tg_Base := baseWithTestGroupName (CIJobName tg);
                  tg_GcsLogDir :=
                    GCSBucket +:+ "/" +:+ LogsDir +:+ "/" +:+ CIJobName tg;
                  tg_Extras := Extra tg |}))
         <$> added).
Proof.
  destruct (AddNonAlignedTest_fold added t) as (Hn & Hmd & Hp & Hr).
  repeat (split; [done |]).
  unfold generateNonAlignedTestGroups. rewrite Hn, foldl_app.
  by apply foldl_emit.
Qed.

(** ** Further properties of the walks over the grid *)

Lemma foldl_emit_bind {B : Type} (f : outputter → B → outputter)
    (h : B → list emission) (l : list B) (o : outputter) :
  (∀ o b, b ∈ l → f o b = o ++ h b) → foldl f o l = o ++ (l ≫= h).
Proof.
  revert o. induction l as [|b l IH]; intros o Hf; cbn.
  - by rewrite app_nil_r.
  - rewrite Hf by apply list_elem_of_here.
    rewrite IH by (intros; apply Hf; by apply list_elem_of_further).
    by rewrite <- app_assoc.
Qed.

Lemma bind_filter_if {B C : Type} (c : B → bool) (h : B → list C) (l : list B) :
  (l ≫= λ b, if c b then [] else h b) = filter (λ b, c b = false) l ≫= h.
Proof.
  induction l as [|b l IH]; [done |]. rewrite bind_cons, IH.
  destruct (c b) eqn:Hc.
  - by rewrite filter_cons_False by (by rewrite Hc).
  - by rewrite filter_cons_True, bind_cons by done.
Qed.

Lemma bind_singleton_fmap {B C : Type} (f : B → C) (l : list B) :
  (l ≫= λ b, [f b]) = f <$> l.
Proof. induction l as [|b l IH]; [done |]. by rewrite bind_cons, IH. Qed.

Lemma foldl_present_repos (t : TestGridMetaData) (p : string)
    (l acc : list string) :
  foldl (λ names repoName,
           match default ∅ (md t !! p) !! repoName with
           | Some _ => names ++ [repoName]
           | None => names
           end) acc l
  = acc ++ filter (λ r, is_Some (cell t p r)) l.
Proof.
  revert acc. induction l as [|r l IH]; intros acc; cbn [foldl].
  - by rewrite app_nil_r.
  - rewrite IH.
    destruct (default ∅ (md t !! p) !! r) eqn:Hr.
    + rewrite filter_cons_True by (unfold cell; rewrite Hr; eauto).
      by rewrite <- app_assoc.
    + by rewrite filter_cons_False by (unfold cell; rewrite Hr; by intros [? ?]).
Qed.

(** X11. With a generator that appends to the output, a section is its
    header followed by what the generator writes for each populated cell,
    and nothing else: projects are taken in projNames order, the released
    ones left out when skipReleasedProj is set, and within a project the
    repos in repoNames order, whatever order the maps were filled in. *)
Theorem generateTestGridSection_visits (t : TestGridMetaData)
    (sectionName : string) (generator : testgridEntityGenerator)
    (g : string → string → list string → list emission)
    (skipReleasedProj : bool) (output : outputter) :
  (∀ p r jobNames o, generator p r jobNames o = o ++ g p r jobNames) →
  generateTestGridSection t sectionName generator skipReleasedProj output
  = output ++
    ConfigLine (sectionName +:+ ":")
    :: (p ← filter (λ p, skipReleasedProj && isReleased p = false) (projNames t);
        r ← repoNames t;
        match cell t p r with
        | Some jobNames => g p r jobNames
        | None => []
        end).
Proof.
  intros Hgen. unfold generateTestGridSection. cbv zeta.
  rewrite (foldl_emit_bind _
             (λ p, if skipReleasedProj && isReleased p then []
                   else r ← repoNames t;
                        match cell t p r with
                        | Some jobNames => g p r jobNames
                        | None => []
                        end)).
  - rewrite bind_filter_if. unfold outputConfig. rewrite <- app_assoc. cbn [app].
    rewrite bool_decide_eq_false_2; [done |].
    unfold count. rewrite length_app. cbn [length]. lia.
  - intros o p _. destruct (skipReleasedProj && isReleased p).
    + by rewrite app_nil_r.
    + apply foldl_emit_bind. intros o' r _. unfold cell.
      destruct (default ∅ (md t !! p) !! r); [apply Hgen | by rewrite app_nil_r].
Qed.

(** X12. The dashboard groups of the grid are the header line followed by
    one group per project that is not released, in projNames order; the
    members of a group are the repos of repoNames that the project holds,
    in repoNames order, so a project without repos gets a group without
    members. *)
Theorem generateDashboardGroups_spec (t : TestGridMetaData) (output : outputter) :
  generateDashboardGroups t output
  = output ++
    ConfigLine "dashboard_groups:"
    :: ((λ p,
           TemplateExec "dashboard group" dashboardGroupTemplate
             (DashboardGroupData
                {| dg_Name := p;
                   dg_RepoNames :=
                     filter (λ r, is_Some (cell t p r)) (repoNames t) |}))
          <$> filter (λ p, isReleased p = false) (projNames t)).
Proof.
  unfold generateDashboardGroups. cbv zeta.
  rewrite (foldl_emit_bind _
             (λ p, if isReleased p then []
                   else [ TemplateExec "dashboard group" dashboardGroupTemplate
                            (DashboardGroupData
                               {| dg_Name := p;
                                  dg_RepoNames :=
                                    filter (λ r, is_Some (cell t p r)) (repoNames t) |}) ])).
  - rewrite bind_filter_if, bind_singleton_fmap. unfold outputConfig.
    by rewrite <- app_assoc.
  - intros o p _. destruct (isReleased p); [by rewrite app_nil_r |].
    by rewrite foldl_present_repos.
Qed.

(** X13. The release pass writes, for each released project in projNames
    order, a dashboard named after the project with one tab per repo and
    job of the project, named repo-job, sorted by name and carrying the
    alerting pair of three failures and the team address whatever the job
    kind is; a released project without jobs still gets its dashboard
    line. When no project is released the pass writes nothing. *)
Theorem generateDashboardsForReleases_spec (t : TestGridMetaData)
    (output : outputter) :
  generateDashboardsForReleases t output
  = output ++
    (p ← filter (λ p, isReleased p = true) (projNames t);
     ConfigLine ("- name: " +:+ p +:+ nl +:+ baseIndent +:+ "dashboard_tab:")
     :: (r ← repoNames t;
         match cell t p r with
         | Some jobNames =>
             (λ jobName,
                dashboardTab
                  {| dt_Base :=
                       baseWithTestGroupName
                         (getTestGroupName unicodeLower (buildProjRepoStr p r) jobName);
                     dt_Name := r +:+ "-" +:+ jobName;
                     dt_BaseOptions := testgridTabSortByName;
                     dt_Extras :=
                       <["alert_options" := dashboardAlertOptions]>
                         (<["num_failures_to_alert" := "3"]> ∅) |})
               <$> jobNames
         | None => []
         end))
  ∧ (Forall (λ p, isReleased p = false) (projNames t) →
     generateDashboardsForReleases t output = output).
Proof.
  assert (generateDashboardsForReleases t output
          = output ++
            (projNames t ≫= λ p,
               if negb (isReleased p) then []
               else
                 ConfigLine ("- name: " +:+ p +:+ nl +:+ baseIndent +:+ "dashboard_tab:")
                 :: (r ← repoNames t;
                     match cell t p r with
                     | Some jobNames =>
                         (λ jobName,
                            dashboardTab
                              {| dt_Base :=
                                   baseWithTestGroupName
                                     (getTestGroupName unicodeLower
                                        (buildProjRepoStr p r) jobName);
                                 dt_Name := r +:+ "-" +:+ jobName;
                                 dt_BaseOptions := testgridTabSortByName;
                                 dt_Extras :=
                                   <["alert_options" := dashboardAlertOptions]>
                                     (<["num_failures_to_alert" := "3"]> ∅) |})
                           <$> jobNames
                     | None => []
                     end))) as Heq.
  { unfold generateDashboardsForReleases. apply foldl_emit_bind. intros o p _.
    destruct (negb (isReleased p)); [by rewrite app_nil_r |]. cbv zeta.
    unfold outputConfig.
    rewrite (foldl_emit_bind _
               (λ r, match cell t p r with
                     | Some jobNames =>
                         (λ jobName,
                            dashboardTab
                              {| dt_Base :=
                                   baseWithTestGroupName
                                     (getTestGroupName unicodeLower
                                        (buildProjRepoStr p r) jobName);
                                 dt_Name := r +:+ "-" +:+ jobName;
                                 dt_BaseOptions := testgridTabSortByName;
                                 dt_Extras :=
                                   <["alert_options" := dashboardAlertOptions]>
                                     (<["num_failures_to_alert" := "3"]> ∅) |})
                           <$> jobNames
                     | None => []
                     end)).
    - by rewrite <- app_assoc.
    - intros o' r _. unfold cell.
      destruct (default ∅ (md t !! p) !! r); [| by rewrite app_nil_r].
      by apply foldl_emit. }
  rewrite Heq. split.
  - rewrite bind_filter_if. do 2 f_equal. apply list_filter_iff.
    intros p. by destruct (isReleased p).
  - intros Hnone. clear Heq. rewrite <- (app_nil_r output) at 2. f_equal.
    induction Hnone as [|p l Hp Hl IH]; [done |].
    rewrite bind_cons, IH, Hp. done.
Qed.

(** ** Dashboards of the non-aligned entries *)

Lemma filter_dashboard_nil (l : list NonAlignedTestGroup) (name : string) :
  name ∉ DashboardName <$> l → filter (λ tg, DashboardName tg = name) l = [].
Proof.
  induction l as [|tg l IH]; [done |]. rewrite fmap_cons, not_elem_of_cons.
  intros [Hne Hnin]. rewrite filter_cons_False by congruence. by apply IH.
Qed.

Lemma collectByDashboardName_inv (l : list NonAlignedTestGroup) :
  (foldl collectByDashboardName ([], ∅) l).1 = first_seen (DashboardName <$> l)
  ∧ ∀ name,
      (foldl collectByDashboardName ([], ∅) l).2 !! name
      = if decide (name ∈ DashboardName <$> l) then
          Some (filter (λ tg, DashboardName tg = name) l)
        else None.
Proof.
  induction l as [|tg l [IHk IHd]] using rev_ind.
  - split; [done |]. intros name. cbn. rewrite lookup_empty.
    by rewrite decide_False by apply not_elem_of_nil.
  - rewrite foldl_snoc.
    destruct (foldl collectByDashboardName ([], ∅) l) as [keys dn].
    cbn [fst snd] in IHk, IHd. unfold collectByDashboardName.
    rewrite fmap_app. cbn [fmap list_fmap]. rewrite first_seen_snoc.
    pose proof (IHd (DashboardName tg)) as Hn.
    assert (∀ name, name ≠ DashboardName tg →
              (name ∈ (DashboardName <$> l) ++ [DashboardName tg]
               ↔ name ∈ DashboardName <$> l)) as Hmem.
    { intros name Hne. rewrite elem_of_app, list_elem_of_singleton.
      split; [by intros [? | ?] | by left]. }
    destruct (decide (DashboardName tg ∈ DashboardName <$> l)) as [Hin | Hnin];
      rewrite Hn; cbv beta iota zeta; cbn [fst snd]; (split; [by rewrite ?IHk |]);
      intros name; rewrite filter_app;
      destruct (decide (name = DashboardName tg)) as [-> | Hne].
    + rewrite lookup_insert_eq, Hn. cbn [default].
      rewrite decide_True by (apply elem_of_app; by left).
      by rewrite filter_cons_True.
    + rewrite lookup_insert_ne by done. rewrite IHd.
      rewrite (decide_ext _ _ _ _ (Hmem name Hne)).
      rewrite filter_cons_False by congruence.
      cbn [filter list_filter]. by rewrite app_nil_r.
    + rewrite !lookup_insert_eq. cbn [default app].
      rewrite decide_True by (apply elem_of_app; right; apply list_elem_of_here).
      rewrite filter_dashboard_nil by done.
      by rewrite filter_cons_True.
    + rewrite !lookup_insert_ne by done. rewrite IHd.
      rewrite (decide_ext _ _ _ _ (Hmem name Hne)).
      rewrite filter_cons_False by congruence.
      cbn [filter list_filter]. by rewrite app_nil_r.
Qed.

(** X14. The non-aligned dashboards are one dashboard per distinct
    DashboardName, in first-seen order; its tabs are the entries carrying
    that name, in the order they were added, each with its own tab name, CI
    job and base options and with no extras. Entries are never merged or
    dropped: every entry has its tab in the output. *)
Theorem generateNonAlignedDashboards_spec (t : TestGridMetaData)
    (output : outputter) :
  generateNonAlignedDashboards t output
  = output ++
    (name ← first_seen (DashboardName <$> nonAligned t);
     ConfigLine ("- name: " +:+ name +:+ nl +:+ baseIndent +:+ "dashboard_tab:")
     :: ((λ tg,
            dashboardTab
              {| dt_Base := baseWithTestGroupName (CIJobName tg);
                 dt_Name := HumanTabName tg;
                 dt_BaseOptions := BaseOptions tg;
                 dt_Extras := ∅ |})
           <$> filter (λ tg, DashboardName tg = name) (nonAligned t)))
  ∧ (∀ tg, tg ∈ nonAligned t →
           dashboardTab
             {| dt_Base := baseWithTestGroupName (CIJobName tg);
                dt_Name := HumanTabName tg;
                dt_BaseOptions := BaseOptions tg;
                dt_Extras := ∅ |}
           ∈ generateNonAlignedDashboards t output).
Proof.
  assert (generateNonAlignedDashboards t output
          = output ++
            (name ← first_seen (DashboardName <$> nonAligned t);
             ConfigLine ("- name: " +:+ name +:+ nl +:+ baseIndent +:+ "dashboard_tab:")
             :: ((λ tg,
                    dashboardTab
                      {| dt_Base := baseWithTestGroupName (CIJobName tg);
                         dt_Name := HumanTabName tg;
                         dt_BaseOptions := BaseOptions tg;
                         dt_Extras := ∅ |})
                   <$> filter (λ tg, DashboardName tg = name) (nonAligned t)))) as Heq.
  { unfold generateNonAlignedDashboards.
    destruct (collectByDashboardName_inv (nonAligned t)) as [Hkeys Hdn].
    destruct (foldl collectByDashboardName ([], ∅) (nonAligned t)) as [keys dn].
    cbn [fst snd] in Hkeys, Hdn. subst keys.
    apply foldl_emit_bind. intros o name Hin. rewrite elem_of_first_seen in Hin.
    rewrite Hdn, decide_True by done. cbn [default]. cbv zeta.
    unfold outputConfig.
    rewrite (foldl_emit _
               (λ tg, dashboardTab
                        {| dt_Base := baseWithTestGroupName (CIJobName tg);
                           dt_Name := HumanTabName tg;
                           dt_BaseOptions := BaseOptions tg;
                           dt_Extras := ∅ |})) by done.
    by rewrite <- app_assoc. }
  split; [done |]. intros tg Hin. rewrite Heq.
  apply elem_of_app. right. apply list_elem_of_bind.
  exists (DashboardName tg). split.
  - apply list_elem_of_further, list_elem_of_fmap. exists tg. split; [done |].
    by apply list_elem_of_filter.
  - apply elem_of_first_seen, list_elem_of_fmap. by exists tg.
Qed.

(** ** Tabs of the aligned dashboards *)

(** The test groups the tabs of an output point at, the test groups an
    output declares, and the tabs of an output by name and base options. *)
Definition tabTargets (o : outputter) : list string :=
  omap (λ e, match e with
             | TemplateExec _ _ (DashboardTabData d) => Some (TestGroupName (dt_Base d))
             | _ => None
             end) o.

Definition testGroupNames (o : outputter) : list string :=
  omap (λ e, match e with
             | TemplateExec _ _ (TestGroupData d) => Some (TestGroupName (tg_Base d))
             | _ => None
             end) o.

Definition tabDisplays (o : outputter) : list (string * string) :=
  omap (λ e, match e with
             | TemplateExec _ _ (DashboardTabData d) => Some (dt_Name d, dt_BaseOptions d)
             | _ => None
             end) o.

(** What the loop of generateDashboard shows for one job kind. *)
Definition jobDisplays (projRepoStr jobName : string) : list (string * string) :=
  if decide (jobName = "continuous") then
    if decide (projRepoStr = "knative-serving") then
      [ ("continuous", testgridTabSortByName);
        ("conformance", "include-filter-by-regex=test/conformance/&sort-by-name=") ]
    else [ ("continuous", testgridTabSortByName) ]
  else if decide (jobName = "test-coverage") then
    [ ("coverage", testgridTabGroupByDir) ]
  else [ (jobName, testgridTabSortByName) ].

Lemma generateDashboardJob_tabs (projRepoStr : string) (o : outputter)
    (jobName : string) :
  tabTargets (generateDashboardJob projRepoStr ∅ o jobName)
  = tabTargets o ++
    replicate (length (jobDisplays projRepoStr jobName))
      (getTestGroupName unicodeLower projRepoStr jobName)
  ∧ tabDisplays (generateDashboardJob projRepoStr ∅ o jobName)
    = tabDisplays o ++ jobDisplays projRepoStr jobName.
Proof using unicodeLower.
  clear. unfold generateDashboardJob, jobDisplays, executeDashboardTabTemplate,
    executeTemplate, tabTargets, tabDisplays.
  repeat case_decide; subst; try (exfalso; intuition congruence);
    rewrite ?omap_app; cbn; rewrite <- ?app_assoc; done.
Qed.

Lemma generateDashboard_tabs (p r : string) (jobNames : list string) :
  tabTargets (generateDashboard p r jobNames [])
  = (jobNames ≫= λ jobName,
       replicate (length (jobDisplays (buildProjRepoStr p r) jobName))
         (getTestGroupName unicodeLower (buildProjRepoStr p r) jobName))
  ∧ tabDisplays (generateDashboard p r jobNames [])
    = (jobNames ≫= jobDisplays (buildProjRepoStr p r)).
Proof.
  unfold generateDashboard. cbv zeta.
  enough (∀ o,
            tabTargets (foldl (generateDashboardJob (buildProjRepoStr p r) ∅) o jobNames)
            = tabTargets o ++
              (jobNames ≫= λ jobName,
                 replicate (length (jobDisplays (buildProjRepoStr p r) jobName))
                   (getTestGroupName unicodeLower (buildProjRepoStr p r) jobName))
            ∧ tabDisplays (foldl (generateDashboardJob (buildProjRepoStr p r) ∅) o jobNames)
              = tabDisplays o ++ (jobNames ≫= jobDisplays (buildProjRepoStr p r)))
    as Hgen by apply Hgen.
  induction jobNames as [|jobName jobNames IH]; intros o; cbn [foldl].
  - by rewrite !app_nil_r.
  - destruct (IH (generateDashboardJob (buildProjRepoStr p r) ∅ o jobName)) as [-> ->].
    destruct (generateDashboardJob_tabs (buildProjRepoStr p r) o jobName) as [-> ->].
    by rewrite !bind_cons, <- !app_assoc.
Qed.

Lemma generateTestGroup_names (p r : string) (jobNames : list string) :
  testGroupNames (generateTestGroup p r jobNames [])
  = getTestGroupName unicodeLower (buildProjRepoStr p r) <$> jobNames.
Proof.
  unfold generateTestGroup. cbv zeta.
  enough (∀ o,
            testGroupNames
              (foldl (generateTestGroupJob p (buildProjRepoStr p r)) o jobNames)
            = testGroupNames o ++
              (getTestGroupName unicodeLower (buildProjRepoStr p r) <$> jobNames))
    as Hgen by apply Hgen.
  induction jobNames as [|jobName jobNames IH]; intros o; cbn [foldl].
  - by rewrite app_nil_r.
  - rewrite IH. unfold generateTestGroupJob at 1, executeTestGroupTemplate,
      executeTemplate, testGroupNames at 1.
    rewrite omap_app. cbn. by rewrite <- app_assoc.
Qed.

(** X15. The dashboard pass and the test-group pass agree on names: for
    the same project, repo and job list, every tab of the dashboard points
    at a test group the test-group pass declares, and every test group
    declared has a tab pointing at it. *)
Theorem dashboard_tabs_match_test_groups (p r : string) (jobNames : list string)
    (name : string) :
  name ∈ tabTargets (generateDashboard p r jobNames [])
  ↔ name ∈ testGroupNames (generateTestGroup p r jobNames []).
Proof.
  destruct (generateDashboard_tabs p r jobNames) as [-> _].
  rewrite generateTestGroup_names, list_elem_of_bind, list_elem_of_fmap.
  split.
  - intros (jobName & [-> _]%elem_of_replicate & Hin). by exists jobName.
  - intros (jobName & -> & Hin). exists jobName. split; [| done].
    apply elem_of_replicate. split; [done |].
    unfold jobDisplays. by repeat case_decide.
Qed.

(** X16. A dashboard shows its job kinds in the order of the job list,
    one tab per kind, named after the kind and sorted by name, with two
    exceptions: test-coverage is shown as coverage, grouped by directory,
    and continuous in knative-serving is followed by a conformance tab
    filtered on the conformance tests. *)
Theorem generateDashboard_displays (p r : string) (jobNames : list string) :
  tabDisplays (generateDashboard p r jobNames [])
  = (jobNames ≫= jobDisplays (buildProjRepoStr p r))
  ∧ (length jobNames ≤ length (tabDisplays (generateDashboard p r jobNames []))
                     ≤ 2 * length jobNames)%nat.
Proof.
  destruct (generateDashboard_tabs p r jobNames) as [_ ->]. split; [done |].
  induction jobNames as [|jobName jobNames IH]; [done |].
  rewrite bind_cons, length_app. cbn [length].
  assert (1 ≤ length (jobDisplays (buildProjRepoStr p r) jobName) ≤ 2)%nat
    by (unfold jobDisplays; repeat case_decide; cbn; lia).
  lia.
Qed.

(** ** The policy and its annotations *)

Lemma FindStringSubmatch_testgroupAlertOptions :
  FindStringSubmatch testgroupAlertOptions !! 1%nat = Some teamEmail.
Proof. vm_compute. reflexivity. Qed.

Lemma FindStringSubmatch_dashboardAlertOptions :
  FindStringSubmatch dashboardAlertOptions !! 1%nat = Some teamEmail.
Proof. vm_compute. reflexivity. Qed.

Lemma getTestgroupExtras_alert_options (projName jobName v : string) :
  getTestgroupExtras projName jobName !! "alert_options" = Some v →
  v = testgroupAlertOptions.
Proof using releaseRegex_FindString.
  clear. unfold getTestgroupExtras.
  repeat case_decide; try case_bool_decide; intros Hlook; vm_compute in Hlook;
    first [discriminate | injection Hlook as <-; reflexivity].
Qed.

(** X17. The policy never makes the annotation writer panic: for every
    project and job kind, generateProwJobAnnotations returns on the extras
    of getTestgroupExtras, and the address it reads from any alert_options
    the policy or a dashboard tab carries is the team address. *)
Theorem annotations_of_policy_never_panic (repoName projName jobName : string) :
  is_Some (generateProwJobAnnotations repoName jobName
             (getTestgroupExtras projName jobName))
  ∧ (∀ v, getTestgroupExtras projName jobName !! "alert_options" = Some v →
          FindStringSubmatch v !! 1%nat = Some teamEmail)
  ∧ (∀ v, dashboardTabExtras jobName !! "alert_options" = Some v →
          FindStringSubmatch v !! 1%nat = Some teamEmail).
Proof using releaseRegex_FindString.
  clear. split; [| split].
  - unfold generateProwJobAnnotations.
    destruct (getTestgroupExtras projName jobName !! "alert_options") as [v |] eqn:Hv.
    + apply getTestgroupExtras_alert_options in Hv as ->.
      rewrite FindStringSubmatch_testgroupAlertOptions. cbn.
      destruct (_ !! "num_failures_to_alert"); eauto.
    + destruct (_ !! "num_failures_to_alert"); eauto.
  - intros v ->%getTestgroupExtras_alert_options.
    apply FindStringSubmatch_testgroupAlertOptions.
  - intros v. unfold dashboardTabExtras.
    repeat case_decide;
      rewrite ?lookup_insert_eq, ?lookup_empty; intros [= <-];
      apply FindStringSubmatch_dashboardAlertOptions.
Qed.

(** X18. The extras of getTestgroupExtras are never empty and use only
    the four keys alert_stale_results_hours, short_text_metric,
    alert_options and num_failures_to_alert; an alert address is set
    exactly when a failure threshold is; and the project matters for the
    job kind continuous only. *)
Theorem getTestgroupExtras_shape (projName jobName : string) :
  getTestgroupExtras projName jobName ≠ ∅
  ∧ (∀ k, is_Some (getTestgroupExtras projName jobName !! k) →
          k ∈ [ "alert_stale_results_hours"; "short_text_metric";
                "alert_options"; "num_failures_to_alert" ])
  ∧ (is_Some (getTestgroupExtras projName jobName !! "alert_options")
     ↔ is_Some (getTestgroupExtras projName jobName !! "num_failures_to_alert"))
  ∧ (jobName ≠ "continuous" →
     ∀ otherProj,
       getTestgroupExtras otherProj jobName = getTestgroupExtras projName jobName).
Proof using releaseRegex_FindString.
  clear. split; [| split; [| split]].
  - unfold getTestgroupExtras.
    repeat case_decide; try case_bool_decide; apply insert_non_empty.
  - intros k [v Hv].
    destruct (decide (k = "alert_stale_results_hours")) as [-> | ?];
      [apply list_elem_of_here |].
    destruct (decide (k = "short_text_metric")) as [-> | ?];
      [apply list_elem_of_further, list_elem_of_here |].
    destruct (decide (k = "alert_options")) as [-> | ?];
      [do 2 apply list_elem_of_further; apply list_elem_of_here |].
    destruct (decide (k = "num_failures_to_alert")) as [-> | ?];
      [do 3 apply list_elem_of_further; apply list_elem_of_here |].
    exfalso. unfold getTestgroupExtras in Hv.
    repeat case_decide; try case_bool_decide;
      rewrite ?lookup_insert_ne in Hv by congruence;
      by rewrite lookup_empty in Hv.
  - unfold getTestgroupExtras.
    repeat case_decide; try case_bool_decide;
      rewrite ?lookup_insert_eq, ?lookup_insert_ne, ?lookup_empty by done;
      split; (eauto || by intros [? ?]).
  - intros Hne otherProj. unfold getTestgroupExtras.
    by rewrite !(decide_False (P := jobName = "continuous")) by done.
Qed.

(** X19. generateProwJobAnnotations reads nothing but its four keys:
    setting any other key of the extras changes neither the lines it
    returns nor whether it panics. The lines it returns start with the
    dashboard and tab lines and number at most six. *)
Theorem generateProwJobAnnotations_other_keys (repoName jobName k v : string)
    (tgExtras : gmap string string) :
  k ∉ [ "alert_stale_results_hours"; "short_text_metric";
        "alert_options"; "num_failures_to_alert" ] →
  generateProwJobAnnotations repoName jobName (<[k := v]> tgExtras)
  = generateProwJobAnnotations repoName jobName tgExtras
  ∧ (∀ lines,
       generateProwJobAnnotations repoName jobName tgExtras = Some lines →
       take 2 lines = [ "  testgrid-dashboards: " +:+ repoName;
                        "  testgrid-tab-name: " +:+ jobName ]
       ∧ (2 ≤ length lines ≤ 6)%nat).
Proof.
  intros Hk. rewrite !not_elem_of_cons in Hk.
  destruct Hk as (H1 & H2 & H3 & H4 & _). split.
  - unfold generateProwJobAnnotations. by rewrite !lookup_insert_ne by done.
  - intros lines. unfold generateProwJobAnnotations.
    destruct (tgExtras !! "alert_stale_results_hours");
      destruct (tgExtras !! "short_text_metric");
      destruct (tgExtras !! "alert_options") as [w |];
      try destruct (FindStringSubmatch w !! 1%nat);
      destruct (tgExtras !! "num_failures_to_alert");
      cbn; intros [= <-]; cbn; (split; [done | lia]).
Qed.

(** X20. On ASCII arguments the test group name holds no upper-case
    letter, and the letter case of the repo does not matter: the name of
    the lowered repo is the name of the repo. *)
Theorem getTestGroupName_ascii_case (repoName jobName : string) :
  string_forall isASCII repoName = true →
  string_forall isASCII jobName = true →
  string_exists isUpper (getTestGroupName unicodeLower repoName jobName) = false
  ∧ getTestGroupName unicodeLower (ToLower unicodeLower repoName) jobName
    = getTestGroupName unicodeLower repoName jobName.
Proof.
  intros Hrepo Hjob.
  assert (string_forall isASCII (string_map lowerByte repoName) = true) as Hlow
    by (by apply string_map_lowerByte_ascii).
  unfold getTestGroupName. rewrite (ToLower_ascii unicodeLower repoName) by done.
  case_decide.
  - rewrite !ToLower_ascii
      by (rewrite !string_forall_app, ?Hrepo, ?Hlow, Hjob; by subst).
    split; [apply string_map_lowerByte_no_upper |].
    by rewrite !string_map_app, string_map_lowerByte_idemp.
  - rewrite !ToLower_ascii
      by (by rewrite !string_forall_app, ?Hrepo, ?Hlow, Hjob).
    split; [apply string_map_lowerByte_no_upper |].
    by rewrite !string_map_app, string_map_lowerByte_idemp.
Qed.

End Generator.

(** ** The passes on concrete stores *)

(** Stand-ins for the collaborators on the inputs below, which are ASCII
    only, so that the Unicode path of ToLower is never taken. *)
Definition sampleUnicodeLower : string → string := λ s, s.
Definition sampleFindString : string → string :=
  λ projName, if decide (projName = "knative-0.13") then "-0.13" else "".
Definition sampleIsReleased : string → bool :=
  λ projName, bool_decide (projName = "knative-0.13").
Definition sampleProjRepoStr : string → string → string :=
  λ projName repoName, projName +:+ "-" +:+ repoName.

(** C2 (counterexample). The name built for Serving and nightly is not
    serving-nightly-release: it carries the ci- prefix. *)
Lemma getTestGroupName_counterexample :
  getTestGroupName sampleUnicodeLower "Serving" "nightly"
  ≠ "serving-nightly-release".
Proof. vm_compute. discriminate. Qed.

(** C1 (counterexample). For the job kind webhook-apicoverage the tab of
    the aligned-dashboard pass carries no extras, while getTestgroupExtras
    returns a stale-results threshold of 48 hours. *)
Lemma generateDashboard_extras_counterexample :
  ∃ d,
    dashboardTab d
    ∈ generateDashboard sampleUnicodeLower sampleProjRepoStr "  "
        "knative" "serving" ["webhook-apicoverage"] []
    ∧ dt_Extras d = ∅
    ∧ getTestgroupExtras sampleFindString "knative" "webhook-apicoverage"
      = <["alert_stale_results_hours" := "48"]> ∅
    ∧ dt_Extras d ≠ getTestgroupExtras sampleFindString "knative" "webhook-apicoverage".
Proof.
  eexists. split; [| split; [| split]].
  - apply list_elem_of_further, list_elem_of_here.
  - reflexivity.
  - reflexivity.
  - intros H.
    apply (f_equal (λ m : gmap string string, m !! "alert_stale_results_hours")) in H.
    vm_compute in H. discriminate.
Qed.

Example generateDashboard_continuous_serving :
  (dt_Name <$>
     omap (λ e, match e with
                | TemplateExec _ _ (DashboardTabData d) => Some d
                | _ => None
                end)
          (generateDashboard sampleUnicodeLower sampleProjRepoStr "  "
             "knative" "serving" ["continuous"; "test-coverage"] []))
  = ["continuous"; "conformance"; "coverage"].
Proof. reflexivity. Qed.

Example generateTestGroup_coverage_log_dir :
  generateTestGroup sampleUnicodeLower sampleFindString sampleProjRepoStr
    "knative-prow" "logs" "knative" "Serving" ["test-coverage"] []
  = [ TemplateExec "test group" testGroupTemplate
        (TestGroupData
           {| tg_Base := baseWithTestGroupName "ci-knative-serving-test-coverage";
              tg_GcsLogDir := "knative-prow/logs/ci-knative-Serving-go-coverage";
              tg_Extras := <["short_text_metric" := "coverage"]> ∅ |}) ].
Proof. reflexivity. Qed.

Example generateProwJobAnnotations_dot_release :
  generateProwJobAnnotations "serving" "dot-release"
    (getTestgroupExtras sampleFindString "knative" "dot-release")
  = Some [ "  testgrid-dashboards: serving";
           "  testgrid-tab-name: dot-release";
           "  testgrid-alert-stale-results-hours: " +:+ quote +:+ "170" +:+ quote;
           "  testgrid-alert-email: " +:+ quote +:+ teamEmail +:+ quote;
           "  testgrid-num-failures-to-alert: " +:+ quote +:+ "1" +:+ quote ].
Proof. vm_compute. reflexivity. Qed.

Example generateProwJobAnnotations_panics :
  generateProwJobAnnotations "serving" "continuous"
    (<["alert_options" := "alert_mail_to_addresses: nobody"]> ∅) = None.
Proof. vm_compute. reflexivity. Qed.

Definition sampleEntry (job dashboard group : string) : NonAlignedTestGroup :=
  {| CIJobName := job; HumanTabName := job; DashboardName := dashboard;
     DashboardGroup := group; BaseOptions := testgridTabSortByName; Extra := ∅ |}.

Example two_dashboards_one_group :
  generateNonAlignedDashboardGroups
    {| md := ∅; projNames := []; repoNames := [];
       nonAligned := [ sampleEntry "ci-a" "tools" "infra";
                       sampleEntry "ci-b" "prow" "infra";
                       sampleEntry "ci-c" "tools" "infra" ] |} []
  = [ TemplateExec "dashboard group" dashboardGroupTemplate
        (DashboardGroupData {| dg_Name := "infra"; dg_RepoNames := ["tools"; "prow"] |}) ].
Proof. vm_compute. reflexivity. Qed.

(** Two stores with the same contents over different maps: the second
    holds one more project entry, empty and absent from the order lists. *)
Definition sampleStore : TestGridMetaData :=
  {| md := <["knative-0.13" := <["serving" := ["continuous"]]> ∅]>
             (<["knative" := <["serving" := ["continuous"; "nightly"; "test-coverage"]]> ∅]> ∅);
     projNames := ["knative"; "knative-0.13"];
     repoNames := ["serving"; "eventing"];
     nonAligned := [ sampleEntry "ci-a" "tools" "infra" ] |}.



Example sample_sections :
  omap (λ e, match e with ConfigLine line => Some line | _ => None end)
       (generateTestgridConfig sampleUnicodeLower sampleFindString
          sampleIsReleased sampleProjRepoStr "knative-prow" "logs" "  "
          sampleStore [])
  = [ "test_groups:"; "dashboards:";
      "- name: serving" +:+ nl +:+ "  dashboard_tab:";
      "- name: knative-0.13" +:+ nl +:+ "  dashboard_tab:";
      "- name: tools" +:+ nl +:+ "  dashboard_tab:";
      "dashboard_groups:" ].
Proof. vm_compute. reflexivity. Qed.

(** ** Applications of the further properties *)

Definition sampleGenerator : testgridEntityGenerator :=
  λ p r jobNames o, o ++ [ConfigLine (p +:+ "/" +:+ r)].

Lemma generateTestGridSection_visits_witness :
  (∀ p r jobNames o,
     sampleGenerator p r jobNames o = o ++ [ConfigLine (p +:+ "/" +:+ r)])
  ∧ generateTestGridSection sampleIsReleased "  " sampleStore "dashboards"
      sampleGenerator true []
    = [] ++
      ConfigLine ("dashboards" +:+ ":")
      :: (p ← filter (λ p, true && sampleIsReleased p = false) (projNames sampleStore);
          r ← repoNames sampleStore;
          match cell sampleStore p r with
          | Some jobNames => [ConfigLine (p +:+ "/" +:+ r)]
          | None => []
          end).
Proof.
  split; [reflexivity |].
  apply (generateTestGridSection_visits sampleIsReleased "  " sampleStore
           "dashboards" sampleGenerator
           (λ p r _, [ConfigLine (p +:+ "/" +:+ r)]) true []).
  reflexivity.
Defined.

Example sample_section_visits :
  generateTestGridSection sampleIsReleased "  " sampleStore "dashboards"
    sampleGenerator true []
  = [ConfigLine "dashboards:"; ConfigLine "knative/serving"].
Proof. vm_compute. reflexivity. Qed.

Lemma generateProwJobAnnotations_other_keys_witness :
  ("owner" ∉ [ "alert_stale_results_hours"; "short_text_metric";
               "alert_options"; "num_failures_to_alert" ])
  ∧ generateProwJobAnnotations "serving" "test-coverage"
      (<["owner" := "me"]> (<["short_text_metric" := "coverage"]> ∅))
    = generateProwJobAnnotations "serving" "test-coverage"
        (<["short_text_metric" := "coverage"]> ∅)
  ∧ (∀ lines,
       generateProwJobAnnotations "serving" "test-coverage"
         (<["short_text_metric" := "coverage"]> ∅) = Some lines →
       take 2 lines = [ "  testgrid-dashboards: " +:+ "serving";
                        "  testgrid-tab-name: " +:+ "test-coverage" ]
       ∧ (2 ≤ length lines ≤ 6)%nat).
Proof.
  assert ("owner" ∉ [ "alert_stale_results_hours"; "short_text_metric";
                      "alert_options"; "num_failures_to_alert" ]) as Hk.
  { intros H. repeat (apply elem_of_cons in H as [H | H]; [discriminate |]).
    by apply elem_of_nil in H. }
  split; [exact Hk |].
  exact (generateProwJobAnnotations_other_keys "serving" "test-coverage" "owner"
           "me" (<["short_text_metric" := "coverage"]> ∅) Hk).
Defined.

Lemma getTestGroupName_ascii_case_witness :
  string_forall isASCII "Serving" = true
  ∧ string_forall isASCII "nightly" = true
  ∧ string_exists isUpper (getTestGroupName sampleUnicodeLower "Serving" "nightly")
    = false
  ∧ getTestGroupName sampleUnicodeLower (ToLower sampleUnicodeLower "Serving") "nightly"
    = getTestGroupName sampleUnicodeLower "Serving" "nightly".
Proof.
  split; [reflexivity |]. split; [reflexivity |].
  apply (getTestGroupName_ascii_case sampleUnicodeLower "Serving" "nightly");
    reflexivity.
Defined.

End TestGrid.
